(** * ESG dashboard: the scraping routine and the fetch layer

    A shallow embedding of [fetch_data.py] (the per-ticker routine
    [scrape_esg_scores]) and of the data path of [app.py] (the ticker
    input of the sidebar and the memoized [fetch_data]), with the
    properties of the specification stated over it.

    Python dictionaries are finite maps with string keys, [None] is a
    constructor of the dynamic value type (or [None] of an [option] where
    the code holds a local variable), exceptions are the [Raise] outcome
    of an error monad, and the HTTP requests issued and the framework's
    memoization cache are an explicit state. *)

From Stdlib Require Import Ascii.
From stdpp Require Import gmap strings list fin_maps.

Local Open Scope string_scope.
Local Open Scope list_scope.

(** ** Builtins of the language

    [float(s)], [s.strip()] and [s.upper()] are builtins of Python, not code
    of the repository.  They are an interface: everything below holds
    for every implementation of it.  [float s = None] stands for the
    [ValueError] that [float] raises on a text that is no number. *)

Class Builtins := {
  pyfloat : Type;
  float : string → option pyfloat;
  strip : string → string;
  upper : string → string
}.

(** ** Exceptions *)

Inductive exn := ValueError | KeyError | RequestException.

Inductive outcome (A : Type) :=
| Ret (a : A)
| Raise (e : exn).
Arguments Ret {A} a.
Arguments Raise {A} e.

Global Instance outcome_ret : MRet outcome := λ A a, Ret a.
Global Instance outcome_bind : MBind outcome := λ A B k m,
  match m with
  | Ret a => k a
  | Raise e => Raise e
  end.

(** [try: x = e  except: pass], with [x] bound to [None] before. *)
Definition try_pass {A} (m : outcome A) : option A :=
  match m with
  | Ret a => Some a
  | Raise _ => None
  end.

(** ** The parsed document

    What BeautifulSoup builds from the response body, as far as the routine
    looks at it: text nodes and tags, a tag with its name, its
    single-valued attributes, the tokens of its [class] attribute (which
    the parser keeps as a list) and its contents. *)

#[warnings="-register-all"] Inductive node :=
| NavigableString (s : string)
| Tag (name : string) (attrs : list (string * string)) (class_ : list string)
      (contents : list node).

Fixpoint attr_get (attrs : list (string * string)) (k : string) : option string :=
  match attrs with
  | [] => None
  | (k', v) :: rest => if String.eqb k' k then Some v else attr_get rest k
  end.

(** All nodes below [n], in document order ([Tag.descendants]). *)
Fixpoint descendants (n : node) : list node :=
  match n with
  | NavigableString _ => []
  | Tag _ _ _ cs =>
      (fix go (l : list node) : list node :=
         match l with
         | [] => []
         | c :: l' => c :: descendants c ++ go l'
         end) cs
  end.

(** [Tag.text]: the strings below the node, concatenated. *)
Fixpoint text (n : node) : string :=
  match n with
  | NavigableString s => s
  | Tag _ _ _ cs =>
      (fix go (l : list node) : string :=
         match l with
         | [] => ""
         | c :: l' => text c +:+ go l'
         end) cs
  end.

Fixpoint join (sep : string) (l : list string) : string :=
  match l with
  | [] => ""
  | [x] => x
  | x :: rest => x +:+ sep +:+ join sep rest
  end.

(** The attribute filters of [find] and [find_all]. *)
Inductive criterion :=
| any_tag
| with_attr (k v : string)
| with_class (c : string).

(** A [class_] filter matches a tag when one of its class tokens is the
    string, or when the tokens joined by single spaces are the string. *)
Definition matches (name : string) (c : criterion) (n : node) : bool :=
  match n with
  | NavigableString _ => false
  | Tag name' attrs cls _ =>
      String.eqb name' name &&
      match c with
      | any_tag => true
      | with_attr k v =>
          match attr_get attrs k with
          | Some v' => String.eqb v' v
          | None => false
          end
      | with_class s => existsb (λ t, String.eqb t s) cls || String.eqb (join " " cls) s
      end
  end.

Definition find_all (name : string) (c : criterion) (n : node) : list node :=
  List.filter (matches name c) (descendants n).

Definition find (name : string) (c : criterion) (n : node) : option node :=
  head (find_all name c n).

(** ** [fetch_data.py] *)

Section Scrape.
Context `{Builtins}.

(** [float(x.text.strip())] *)
Definition float_of_text (n : node) : outcome pyfloat :=
  match float (strip (text n)) with
  | Some v => Ret v
  | None => Raise ValueError
  end.

Definition get_score (soup : node) (testid : string)
  : outcome (option pyfloat * option string) :=
  match find "section" (with_attr "data-testid" testid) soup with
  | None => Ret (None, None)
  | Some section =>
      let score_tag := find "h4" any_tag section in
      let level_tag := find "span" (with_class "perf yf-y3c2sq") section in
      score ← match score_tag with
               | Some t => v ← float_of_text t; Ret (Some v)
               | None => Ret None
               end;
      let level := match level_tag with
                   | Some t => Some (strip (text t))
                   | None => None
                   end in
      Ret (score, level)
  end.

(** The product involvement areas: the rows of the first table of the
    section, the first row left out ([rows[1:]]); a row adds an entry when
    it has exactly two cells ([len(cols) == 2], then [cols[0]] and
    [cols[1]]). *)
Definition involvement_row (involvement_data : gmap string string) (row : node)
  : gmap string string :=
  match find_all "td" any_tag row with
  | [c0; c1] => <[strip (text c0) := strip (text c1)]> involvement_data
  | _ => involvement_data
  end.

Definition involvement_rows (rows : list node) : gmap string string :=
  foldl involvement_row ∅ rows.

Definition involvement_areas (soup : node) : gmap string string :=
  match find "section" (with_attr "data-testid" "involvement-areas") soup with
  | None => ∅
  | Some involvement_section =>
      match find "table" any_tag involvement_section with
      | None => ∅
      | Some table => involvement_rows (tail (find_all "tr" any_tag table))
      end
  end.

(** The controversy score, read from the first span of the value element
    when that element holds two spans or more
    ([if spans and len(spans) >= 2]). *)
Definition controversy_score_of (controversy_section : node) : option pyfloat :=
  match find "div" (with_class "val yf-ye6fz0") controversy_section with
  | None => None
  | Some val_div =>
      match find_all "span" any_tag val_div with
      | s0 :: _ :: _ => try_pass (float_of_text s0)
      | _ => None
      end
  end.

Definition category_average_of (controversy_section : node) : option pyfloat :=
  match find "div" (with_class "tooltip al-top yf-15g2hux") controversy_section with
  | None => None
  | Some tooltip_div =>
      match find "span" (with_class "peer-score yf-ye6fz0") tooltip_div with
      | None => None
      | Some peer_span => try_pass (float_of_text peer_span)
      end
  end.

Definition controversy (soup : node) : option pyfloat * option pyfloat :=
  match find "section" (with_attr "data-testid" "esg-controversy") soup with
  | None => (None, None)
  | Some controversy_section =>
      (controversy_score_of controversy_section,
       category_average_of controversy_section)
  end.

(** The values a result dictionary holds. *)
Inductive value :=
| VNone
| VFloat (x : pyfloat)
| VStr (s : string)
| VDict (d : gmap string string).

Definition float_or_none (o : option pyfloat) : value :=
  match o with Some x => VFloat x | None => VNone end.

Definition str_or_none (o : option string) : value :=
  match o with Some s => VStr s | None => VNone end.

(** The routine from the parsed document on (all that follows the status
    check). *)
Definition scrape_soup (soup : node) : outcome (gmap string value) :=
  '(total_score, total_level) ← get_score soup "TOTAL_ESG_SCORE";
  '(env_score, _) ← get_score soup "ENVIRONMENTAL_SCORE";
  '(soc_score, _) ← get_score soup "SOCIAL_SCORE";
  '(gov_score, _) ← get_score soup "GOVERNANCE_SCORE";
  let involvement_data := involvement_areas soup in
  let '(controversy_score, category_average) := controversy soup in
  Ret (list_to_map
         [("total", float_or_none total_score);
          ("total_level", str_or_none total_level);
          ("environmental", float_or_none env_score);
          ("social", float_or_none soc_score);
          ("governance", float_or_none gov_score);
          ("involvement_areas", VDict involvement_data);
          ("controversy_score", float_or_none controversy_score);
          ("controversy_category_average", float_or_none category_average)]).

(** The network: what [requests.get] gives for a URL, a response or the
    exception of a failed request.  The body of a response is held as the
    document the parser builds from it. *)
Record response := { status_code : Z; body : node }.

Definition network := string → outcome response.

Definition url_of (ticker : string) : string :=
  "https://finance.yahoo.com/quote/" +:+ ticker +:+ "/sustainability/".

(** A request is an effect: it is added to the log of the URLs requested. *)
Definition requests_get (net : network) (url : string) (log : list string)
  : outcome response * list string :=
  (net url, log ++ [url]).

Definition scrape_esg_scores (net : network) (ticker : string) (log : list string)
  : outcome (option (gmap string value)) * list string :=
  let url := url_of ticker in
  let '(resp, log) := requests_get net url log in
  (resp ← resp;
   if decide (status_code resp ≠ 200%Z) then Ret None
   else data ← scrape_soup (body resp); Ret (Some data),
   log).

(** *** Notions used to state the properties *)

(** The four score sections the routine reads. *)
Definition score_sections : list string :=
  ["TOTAL_ESG_SCORE"; "ENVIRONMENTAL_SCORE"; "SOCIAL_SCORE"; "GOVERNANCE_SCORE"].

(** The result of the routine without the log of requests. *)
Definition scrape_result (net : network) (ticker : string)
  : outcome (option (gmap string value)) :=
  resp ← net (url_of ticker);
  if decide (status_code resp ≠ 200%Z) then Ret None
  else data ← scrape_soup (body resp); Ret (Some data).

(** The dictionary the routine builds from what the blocks give. *)
Definition result_dict (total : option pyfloat * option string)
    (env soc gov : option pyfloat) (soup : node) : gmap string value :=
  list_to_map
    [("total", float_or_none total.1);
     ("total_level", str_or_none total.2);
     ("environmental", float_or_none env);
     ("social", float_or_none soc);
     ("governance", float_or_none gov);
     ("involvement_areas", VDict (involvement_areas soup));
     ("controversy_score", float_or_none (controversy soup).1);
     ("controversy_category_average", float_or_none (controversy soup).2)].

(** The pair a row of the involvement table stands for, when it has two
    cells. *)
Definition row_entry (row : node) : option (string * string) :=
  match find_all "td" any_tag row with
  | [c0; c1] => Some (strip (text c0), strip (text c1))
  | _ => None
  end.

(** No row of [rows] is an entry for the product [p]. *)
Definition no_entry_for (p : string) (rows : list node) : Prop :=
  Forall (λ row, ∀ v, row_entry row ≠ Some (p, v)) rows.

(** The score sections of a document all extract. *)
Definition scores_extract (soup : node) : Prop :=
  ∀ testid, testid ∈ score_sections → get_score soup testid ≠ Raise ValueError.

(** The keys of a result dictionary. *)
Definition result_keys : gset string :=
  {[ "total"; "total_level"; "environmental"; "social"; "governance";
     "involvement_areas"; "controversy_score"; "controversy_category_average" ]}.

(** The page the network serves for a ticker with status 200. *)
Definition serves (net : network) (ticker : string) (soup : node) : Prop :=
  ∃ resp, net (url_of ticker) = Ret resp ∧ status_code resp = 200%Z ∧ body resp = soup.

(** The routine returns a dictionary that holds [v] under [k], whatever
    was requested before. *)
Definition returns_field (net : network) (ticker k : string) (v : value) : Prop :=
  ∀ log, ∃ data,
    (scrape_esg_scores net ticker log).1 = Ret (Some data) ∧ data !! k = Some v.

End Scrape.

(** ** [app.py]: the fetch layer *)

Section App.
Context `{Builtins}.

(** [d[k]] *)
Definition getitem (d : gmap string value) (k : string) : outcome value :=
  match d !! k with
  | Some v => Ret v
  | None => Raise KeyError
  end.

Definition is_none (v : value) : bool :=
  match v with VNone => true | _ => false end.

(** One turn of the loop of [fetch_data] on the result of the routine:
    the row that is appended, or [None] when the guard
    [data and data["total"] is not None] fails. *)
Definition result_row (t : string) (data : option (gmap string value))
  : outcome (option (gmap string value)) :=
  match data with
  | None => Ret None
  | Some data =>
      if decide (size data = 0) then Ret None else
      total ← getitem data "total";
      if is_none total then Ret None else
      total ← getitem data "total";
      total_level ← getitem data "total_level";
      environmental ← getitem data "environmental";
      social ← getitem data "social";
      governance ← getitem data "governance";
      controversy_score ← getitem data "controversy_score";
      category_average ← getitem data "controversy_category_average";
      Ret (Some (list_to_map
        [("Ticker", VStr t);
         ("Total ESG Risk Score", total);
         ("Total ESG Risk Level", total_level);
         ("Environmental Risk", environmental);
         ("Social Risk", social);
         ("Governance Risk", governance);
         ("Controversy Score", controversy_score);
         ("Controversy Category Average", category_average);
         ("Involvement Areas", default (VDict ∅) (data !! "involvement_areas"))]))
  end.

(** The table is the list of its rows. *)
Fixpoint fetch_loop (net : network) (tickers : list string)
    (results : list (gmap string value)) (valid_count : nat) (log : list string)
  : outcome (list (gmap string value) * nat) * list string :=
  match tickers with
  | [] => (Ret (results, valid_count), log)
  | t :: rest =>
      let '(data, log) := scrape_esg_scores net t log in
      match data ≫= result_row t with
      | Raise e => (Raise e, log)
      | Ret None => fetch_loop net rest results valid_count log
      | Ret (Some row) => fetch_loop net rest (results ++ [row]) (valid_count + 1) log
      end
  end.

(** The function under the decorator. *)
Definition fetch_data (net : network) (tickers : list string) (log : list string)
  : outcome (list (gmap string value) * nat) * list string :=
  fetch_loop net tickers [] 0 log.

(** The decorator [st.cache_data]: the results of the calls that returned,
    keyed by the argument; a call whose key is there is answered from the
    store, any other call runs the function and stores what it returns (an
    exception is passed on and nothing is stored). *)
Record session := {
  cache : gmap (list string) (list (gmap string value) * nat);
  requests : list string
}.

Definition cached_fetch_data (net : network) (tickers : list string) (s : session)
  : outcome (list (gmap string value) * nat) * session :=
  match cache s !! tickers with
  | Some v => (Ret v, s)
  | None =>
      let '(r, log) := fetch_data net tickers (requests s) in
      match r with
      | Ret v => (Ret v, {| cache := <[tickers := v]> (cache s); requests := log |})
      | Raise e => (Raise e, {| cache := cache s; requests := log |})
      end
  end.

(** *** The sidebar input

    An uploaded file is what [pd.read_csv] makes of it: an exception, or a
    frame, each column the list of its cells, a cell [None] when missing
    and otherwise the text [astype(str)] gives for it. *)

(** [Series.unique()]: the values in the order of their first
    appearance. *)
Fixpoint unique_from (seen : list string) (l : list string) : list string :=
  match l with
  | [] => []
  | x :: rest =>
      if decide (x ∈ seen) then unique_from seen rest
      else x :: unique_from (x :: seen) rest
  end.

Definition unique (l : list string) : list string := unique_from [] l.

(** [dropna()] *)
Definition dropna (col : list (option string)) : list string := omap id col.

Definition uploaded_tickers (uploaded_file : option (outcome (gmap string (list (option string)))))
  : list string :=
  match uploaded_file with
  | None => []
  | Some (Raise _) => []
  | Some (Ret df_uploaded) =>
      match df_uploaded !! "Ticker" with
      | None => []
      | Some col => unique (upper <$> dropna col)
      end
  end.

Definition tickers (uploaded_file : option (outcome (gmap string (list (option string)))))
    (single_ticker : string) : list string :=
  let tickers := uploaded_tickers uploaded_file in
  if decide (single_ticker = "") then tickers else [upper single_ticker].

(** The argument of the call [fetch_data(tickers)] of the script, [None]
    when the script stops before it ([if not tickers: ... st.stop()]). *)
Definition fetch_argument (uploaded_file : option (outcome (gmap string (list (option string)))))
    (single_ticker : string) : option (list string) :=
  match tickers uploaded_file single_ticker with
  | [] => None
  | ts => Some ts
  end.

(** *** Notions used to state the properties *)

(** The fetch result of a ticker is not null and its total score is not
    null. *)
Definition has_total (net : network) (t : string) : bool :=
  match scrape_result net t with
  | Ret (Some data) =>
      match data !! "total" with
      | Some total => negb (is_none total)
      | None => false
      end
  | _ => false
  end.

(** The row of the table for a ticker and its dictionary. *)
Definition table_row (t : string) (data : gmap string value) : gmap string value :=
  list_to_map
    [("Ticker", VStr t);
     ("Total ESG Risk Score", default VNone (data !! "total"));
     ("Total ESG Risk Level", default VNone (data !! "total_level"));
     ("Environmental Risk", default VNone (data !! "environmental"));
     ("Social Risk", default VNone (data !! "social"));
     ("Governance Risk", default VNone (data !! "governance"));
     ("Controversy Score", default VNone (data !! "controversy_score"));
     ("Controversy Category Average",
      default VNone (data !! "controversy_category_average"));
     ("Involvement Areas", default (VDict ∅) (data !! "involvement_areas"))].

Definition row_for (net : network) (t : string) : gmap string value :=
  match scrape_result net t with
  | Ret (Some data) => table_row t data
  | _ => ∅
  end.

End App.

(** ** [app.py]: the script around the fetch *)

Section Dashboard.
Context `{Builtins}.

(** [str.lower], a builtin as the others. *)
Variable lower : string → string.

(** *** The export

    The dictionary a row holds in its [Involvement Areas] column.
    [fetch_data] puts a dictionary there in every row; no other case is
    reached. *)
Definition involvement_of (row : gmap string value) : gmap string string :=
  match row !! "Involvement Areas" with
  | Some (VDict m) => m
  | _ => ∅
  end.

(** The columns of [df["Involvement Areas"].apply(pd.Series)]: the products
    of all rows (their order is not kept here). *)
Definition product_columns (df : list (gmap string value)) : gset string :=
  ⋃ ((λ row, dom (involvement_of row)) <$> df).

(** A row of that frame after [fillna("No")]: the descriptors of the row,
    and ["No"] under the columns it has no descriptor for. *)
Definition fill_no (columns : gset string) (m : gmap string string) : gmap string string :=
  m ∪ gset_to_gmap "No" columns.

(** [pd.concat(..., axis=1)] sets the frame of the product columns beside
    the frame of the remaining columns, row by row, and keeps both also
    where a product has the name of a remaining column: a row of the
    result is the pair of the two rows. *)
Definition explode_involvement_columns (df : list (gmap string value))
  : list (gmap string value * gmap string string) :=
  match df with
  | [] => []
  | _ =>
      let columns := product_columns df in
      (λ row, (delete "Involvement Areas" row, fill_no columns (involvement_of row))) <$> df
  end.

(** *** The script up to the table

    What the page shows after the fetch: the notice that asks for tickers
    and the notice that no data was found (the script stops at either), the
    exception of a failed call, or the dashboard over the table. *)
Inductive dashboard :=
| NoTickers
| NoData
| Failed (e : exn)
| Shown (tickers : list string) (df : list (gmap string value)) (valid_count : nat).

Definition script (net : network)
    (uploaded_file : option (outcome (gmap string (list (option string)))))
    (single_ticker : string) (s : session) : dashboard * session :=
  match fetch_argument uploaded_file single_ticker with
  | None => (NoTickers, s)
  | Some tickers =>
      match cached_fetch_data net tickers s with
      | (Raise e, s) => (Failed e, s)
      | (Ret ([], _), s) => (NoData, s)
      | (Ret (df, valid_count), s) => (Shown tickers df valid_count, s)
      end
  end.

(** [df["Total ESG Risk Level"].str.lower().fillna("unknown")], assigned to
    the column: [.str.lower()] gives a missing value for what is no string. *)
Definition normalize_level (row : gmap string value) : gmap string value :=
  <["Total ESG Risk Level" :=
      VStr (match row !! "Total ESG Risk Level" with
            | Some (VStr level) => lower level
            | _ => "unknown"
            end)]> row.

(** *** The details of one company *)

(** [df["Ticker"].tolist()], the options of the select box. *)
Definition ticker_options (df : list (gmap string value)) : list value :=
  (λ row, default VNone (row !! "Ticker")) <$> df.

Definition ticker_is (selected_ticker : string) (row : gmap string value) : bool :=
  match row !! "Ticker" with
  | Some (VStr t) => String.eqb t selected_ticker
  | _ => false
  end.

(** [df[df["Ticker"] == selected_ticker].iloc[0]], [None] for the
    [IndexError] of [iloc] on a frame without rows. *)
Definition details_row (df : list (gmap string value)) (selected_ticker : string)
  : option (gmap string value) :=
  head (List.filter (ticker_is selected_ticker) df).

(** *** Notions used to state the properties *)

(** The columns of a row of the table. *)
Definition row_columns : gset string :=
  {[ "Ticker"; "Total ESG Risk Score"; "Total ESG Risk Level";
     "Environmental Risk"; "Social Risk"; "Governance Risk";
     "Controversy Score"; "Controversy Category Average"; "Involvement Areas" ]}.

(** A row as [fetch_data] builds them: the nine columns, a total score that
    is not null, a dictionary of involvement areas. *)
Definition row_ok (row : gmap string value) : Prop :=
  dom row = row_columns ∧
  (∃ t, row !! "Ticker" = Some (VStr t)) ∧
  (∃ total, row !! "Total ESG Risk Score" = Some total ∧ total ≠ VNone) ∧
  (∃ m, row !! "Involvement Areas" = Some (VDict m)).

(** A result of [fetch_data] for a list of tickers: as many rows as the
    count says, the tickers of the rows a selection of the list in its
    order, every row well formed. *)
Definition table_ok (tickers : list string) (v : list (gmap string value) * nat) : Prop :=
  v.2 = length v.1 ∧
  ticker_options v.1 `sublist_of` (VStr <$> tickers) ∧
  Forall row_ok v.1.

Definition cache_ok (s : session) : Prop :=
  ∀ tickers v, cache s !! tickers = Some v → table_ok tickers v.

(** The tickers of a list up to the first one the routine raises for, that
    one included. *)
Fixpoint requested (net : network) (tickers : list string) : list string :=
  match tickers with
  | [] => []
  | t :: rest =>
      match scrape_result net t with
      | Raise _ => [t]
      | Ret _ => t :: requested net rest
      end
  end.

(** The first exception the routine raises along a list of tickers. *)
Fixpoint first_raise (net : network) (tickers : list string) : option exn :=
  match tickers with
  | [] => None
  | t :: rest =>
      match scrape_result net t with
      | Raise e => Some e
      | Ret _ => first_raise net rest
      end
  end.

End Dashboard.

(** ** An implementation of the builtins

    ASCII text and plain decimal numerals ([-12.5] is [(-125, 1)]: the
    digits and the number of them after the point), to run the definitions
    on sample pages. *)

Module Sample.

Definition isspace (a : ascii) : bool :=
  let n := N_of_ascii a in
  ((9 <=? n) && (n <=? 13) || (28 <=? n) && (n <=? 32))%N.

Fixpoint lstrip (s : string) : string :=
  match s with
  | String a s' => if isspace a then lstrip s' else s
  | EmptyString => s
  end.

Fixpoint rstrip (s : string) : string :=
  match s with
  | String a s' =>
      match rstrip s' with
      | EmptyString => if isspace a then "" else String a ""
      | r => String a r
      end
  | EmptyString => s
  end.

Definition to_upper (a : ascii) : ascii :=
  let n := N_of_ascii a in
  if ((97 <=? n) && (n <=? 122))%N then ascii_of_N (n - 32) else a.

Fixpoint map_string (f : ascii → ascii) (s : string) : string :=
  match s with
  | String a s' => String (f a) (map_string f s')
  | EmptyString => s
  end.

Definition digit (a : ascii) : option Z :=
  let n := Z.of_N (N_of_ascii a) in
  if ((48 <=? n) && (n <=? 57))%Z then Some (n - 48)%Z else None.

Fixpoint read_digits (s : string) (acc : Z) : option Z :=
  match s with
  | String a s' => d ← digit a; read_digits s' (10 * acc + d)%Z
  | EmptyString => Some acc
  end.

Fixpoint split_point (s : string) : string * option string :=
  match s with
  | String "."%char s' => ("", Some s')
  | String a s' => let '(i, f) := split_point s' in (String a i, f)
  | EmptyString => ("", None)
  end.

Definition unsigned (s : string) : option (Z * nat) :=
  let '(i, f) := split_point s in
  let f := default "" f in
  if decide (String.length i + String.length f = 0) then None
  else m ← read_digits (i +:+ f) 0; Some (m, String.length f).

Definition numeral (s : string) : option (Z * nat) :=
  match s with
  | String "-"%char s' => '(m, k) ← unsigned s'; Some ((- m)%Z, k)
  | String "+"%char s' => unsigned s'
  | _ => unsigned s
  end.

#[export] Instance builtins : Builtins := {|
  pyfloat := Z * nat;
  float := λ s, numeral (rstrip (lstrip s));
  strip := λ s, rstrip (lstrip s);
  upper := map_string to_upper
|}.

(** A sample page, section by section. *)

Definition el (name : string) (cls : list string) (cs : list node) : node :=
  Tag name [] cls cs.

Definition txt (name : string) (cls : list string) (s : string) : node :=
  Tag name [] cls [NavigableString s].

Definition section_ (testid : string) (cs : list node) : node :=
  Tag "section" [("data-testid", testid)] [] cs.

Definition header_row : node := el "tr" [] [txt "th" [] "Product"; txt "th" [] "Involvement"].
Definition tobacco_no : node := el "tr" [] [txt "td" [] "Tobacco"; txt "td" [] " No "].
Definition one_cell : node := el "tr" [] [txt "td" [] "Alcohol"].
Definition tobacco_yes : node := el "tr" [] [txt "td" [] "Tobacco"; txt "td" [] "Yes"].

Definition involvement_table : node :=
  el "table" [] [header_row; tobacco_no; one_cell; tobacco_yes].

Definition involvement_section : node :=
  section_ "involvement-areas" [el "h3" [] []; involvement_table].

Definition span_3 : node := txt "span" [] "3".
Definition span_scale : node := txt "span" [] "/5".
Definition val_div : node := el "div" ["val"; "yf-ye6fz0"] [span_3; span_scale].
Definition peer_span : node := txt "span" ["peer-score"; "yf-ye6fz0"] " 2.1".
Definition tooltip_div : node := el "div" ["tooltip"; "al-top"; "yf-15g2hux"] [peer_span].

Definition controversy_section : node :=
  section_ "esg-controversy" [val_div; tooltip_div].

Definition total_section (score : string) : node :=
  section_ "TOTAL_ESG_SCORE" [txt "h4" [] score; txt "span" ["perf"; "yf-y3c2sq"] "Low"].

Definition document (sections : list node) : node :=
  Tag "[document]" [] [] [el "html" [] [el "body" [] sections]].

Definition page : node :=
  document [total_section " 14.2 ";
            section_ "ENVIRONMENTAL_SCORE" [txt "h4" [] "0.5"];
            section_ "SOCIAL_SCORE" [el "div" [] []];
            involvement_section;
            controversy_section].

(** The same page with a total score that is no number. *)
Definition heading_na : node := txt "h4" [] "N/A".
Definition total_na : node := section_ "TOTAL_ESG_SCORE" [heading_na].
Definition page_na : node := document [total_na; involvement_section; controversy_section].

(** A page whose governance heading is empty. *)
Definition page_empty_heading : node :=
  document [total_section "14.2"; section_ "GOVERNANCE_SCORE" [el "h4" [] []]].

(** A page whose involvement table has its header row only, and whose
    value element holds one span. *)
Definition header_only_table : node := el "table" [] [header_row].
Definition header_only_section : node := section_ "involvement-areas" [header_only_table].
Definition val_div_one : node := el "div" ["val"; "yf-ye6fz0"] [span_3].
Definition controversy_one : node := section_ "esg-controversy" [val_div_one; tooltip_div].
Definition page_sparse : node :=
  document [total_section "20"; header_only_section; controversy_one].

(** Networks: one page for every ticker, a status for every ticker, no
    network. *)
Definition serving (soup : node) : network :=
  λ _, Ret {| status_code := 200; body := soup |}.

Definition answering (status : Z) : network :=
  λ _, Ret {| status_code := status; body := NavigableString "" |}.

Definition offline : network := λ _, Raise RequestException.

(** [AAPL] has the sample page, [SPARSE] the sparse one, every other ticker
    is not found. *)
Definition web : network :=
  λ url, if decide (url = url_of "AAPL") then Ret {| status_code := 200; body := page |}
         else if decide (url = url_of "SPARSE")
              then Ret {| status_code := 200; body := page_sparse |}
              else Ret {| status_code := 404; body := NavigableString "" |}.

(** [str.lower] on ASCII text. *)
Definition to_lower (a : ascii) : ascii :=
  let n := N_of_ascii a in
  if ((65 <=? n) && (n <=? 90))%N then ascii_of_N (n + 32) else a.

Definition lower : string → string := map_string to_lower.

(** A page without any of the sections, and the sample page without its
    total score. *)
Definition blank_page : node := document [txt "p" [] "No data"].
Definition page_no_total : node := document [involvement_section; controversy_section].

(** A row of three cells. *)
Definition three_cells : node :=
  el "tr" [] [txt "td" [] "Gambling"; txt "td" [] "Yes"; txt "td" [] "2%"].

(** The table of [AAPL] and [SPARSE], and the sessions before any call. *)
Definition sample_table : list (gmap string value) :=
  [row_for web "AAPL"; row_for web "SPARSE"].

Definition new_session : session := {| cache := ∅; requests := [] |}.

Definition uploaded_column : list (option string) :=
  [Some "aapl"; None; Some "msft"; Some "AAPL"].

End Sample.

(** ** Properties of the routine *)

Section ScrapeFacts.
Context `{Builtins}.

Lemma scrape_esg_scores_eq net ticker log :
  scrape_esg_scores net ticker log = (scrape_result net ticker, log ++ [url_of ticker]).
Proof. reflexivity. Qed.

Lemma try_pass_float_of_text n : try_pass (float_of_text n) = float (strip (text n)).
Proof. unfold float_of_text. by destruct (float _). Qed.

Lemma get_score_raise soup testid e : get_score soup testid = Raise e → e = ValueError.
Proof.
  unfold get_score, float_of_text.
  destruct (find "section" _ soup) as [sec|]; [|done].
  destruct (find "h4" _ sec) as [t|]; [|done].
  destruct (float _); simpl; congruence.
Qed.

Lemma get_score_absent soup testid :
  find "section" (with_attr "data-testid" testid) soup = None →
  get_score soup testid = Ret (None, None).
Proof. unfold get_score. by intros ->. Qed.

Lemma get_score_no_heading soup testid sec :
  find "section" (with_attr "data-testid" testid) soup = Some sec →
  find "h4" any_tag sec = None →
  ∃ level, get_score soup testid = Ret (None, level).
Proof. unfold get_score. intros -> ->. simpl. eauto. Qed.

Lemma get_score_unparseable soup testid sec t :
  find "section" (with_attr "data-testid" testid) soup = Some sec →
  find "h4" any_tag sec = Some t →
  float (strip (text t)) = None →
  get_score soup testid = Raise ValueError.
Proof. unfold get_score, float_of_text. by intros -> -> ->. Qed.

(** The routine on a document: it raises when one of the four score
    sections does, and returns the dictionary otherwise. *)
Lemma scrape_soup_cases soup :
  match scrape_soup soup with
  | Ret data =>
      ∃ total env soc gov l1 l2 l3,
        get_score soup "TOTAL_ESG_SCORE" = Ret total ∧
        get_score soup "ENVIRONMENTAL_SCORE" = Ret (env, l1) ∧
        get_score soup "SOCIAL_SCORE" = Ret (soc, l2) ∧
        get_score soup "GOVERNANCE_SCORE" = Ret (gov, l3) ∧
        data = result_dict total env soc gov soup
  | Raise e =>
      e = ValueError ∧
      ∃ testid, testid ∈ score_sections ∧ get_score soup testid = Raise ValueError
  end.
Proof.
  unfold scrape_soup, score_sections.
  destruct (get_score soup "TOTAL_ESG_SCORE") as [[ts tl]|e] eqn:E1; simpl.
  2:{ apply get_score_raise in E1 as E; subst. split; [done|].
      exists "TOTAL_ESG_SCORE". split; [set_solver|done]. }
  destruct (get_score soup "ENVIRONMENTAL_SCORE") as [[es l1]|e] eqn:E2; simpl.
  2:{ apply get_score_raise in E2 as E; subst. split; [done|].
      exists "ENVIRONMENTAL_SCORE". split; [set_solver|done]. }
  destruct (get_score soup "SOCIAL_SCORE") as [[ss l2]|e] eqn:E3; simpl.
  2:{ apply get_score_raise in E3 as E; subst. split; [done|].
      exists "SOCIAL_SCORE". split; [set_solver|done]. }
  destruct (get_score soup "GOVERNANCE_SCORE") as [[gs l3]|e] eqn:E4; simpl.
  2:{ apply get_score_raise in E4 as E; subst. split; [done|].
      exists "GOVERNANCE_SCORE". split; [set_solver|done]. }
  destruct (controversy soup) as [cs ca] eqn:E5.
  exists (ts, tl), es, ss, gs, l1, l2, l3.
  unfold result_dict. rewrite E5. done.
Qed.

Lemma scrape_soup_raises soup testid :
  testid ∈ score_sections →
  get_score soup testid = Raise ValueError →
  scrape_soup soup = Raise ValueError.
Proof.
  intros Hin Hr. pose proof (scrape_soup_cases soup) as Hc.
  destruct (scrape_soup soup) as [data|e]; [|by destruct Hc as [-> _]].
  destruct Hc as (total & env & soc & gov & l1 & l2 & l3 & E1 & E2 & E3 & E4 & _).
  unfold score_sections in Hin.
  repeat (apply elem_of_cons in Hin as [->|Hin]; [congruence|]).
  by apply elem_of_nil in Hin.
Qed.

Lemma scrape_soup_returns soup :
  scores_extract soup →
  ∃ total env soc gov, scrape_soup soup = Ret (result_dict total env soc gov soup).
Proof.
  intros Hok. pose proof (scrape_soup_cases soup) as Hc.
  destruct (scrape_soup soup) as [data|e].
  - destruct Hc as (total & env & soc & gov & _ & _ & _ & _ & _ & _ & _ & ->). eauto.
  - destruct Hc as (_ & testid & Hin & Hr). by destruct (Hok testid Hin).
Qed.

Lemma result_dict_dom total env soc gov soup :
  dom (result_dict total env soc gov soup) = result_keys.
Proof.
  unfold result_dict, result_keys. rewrite dom_list_to_map_L. simpl. set_solver.
Qed.

Lemma result_dict_lookup total env soc gov soup :
  let d := result_dict total env soc gov soup in
  d !! "total" = Some (float_or_none total.1) ∧
  d !! "total_level" = Some (str_or_none total.2) ∧
  d !! "environmental" = Some (float_or_none env) ∧
  d !! "social" = Some (float_or_none soc) ∧
  d !! "governance" = Some (float_or_none gov) ∧
  d !! "involvement_areas" = Some (VDict (involvement_areas soup)) ∧
  d !! "controversy_score" = Some (float_or_none (controversy soup).1) ∧
  d !! "controversy_category_average" = Some (float_or_none (controversy soup).2).
Proof. simpl. unfold result_dict. repeat split; reflexivity. Qed.

Lemma scrape_result_served net ticker soup :
  serves net ticker soup →
  scrape_result net ticker = (data ← scrape_soup soup; Ret (Some data)).
Proof.
  intros (resp & Hn & Hs & <-). unfold scrape_result. rewrite Hn. simpl.
  destruct (decide _) as [Hne|_]; [by destruct Hne|done].
Qed.

Lemma returns_involvement_areas net ticker soup :
  serves net ticker soup → scores_extract soup →
  returns_field net ticker "involvement_areas" (VDict (involvement_areas soup)).
Proof.
  intros Hs Hok log. rewrite scrape_esg_scores_eq. simpl.
  rewrite (scrape_result_served _ _ _ Hs).
  destruct (scrape_soup_returns soup Hok) as (total & env & soc & gov & ->).
  eexists. split; [done|]. apply result_dict_lookup.
Qed.

Lemma returns_controversy net ticker soup :
  serves net ticker soup → scores_extract soup →
  returns_field net ticker "controversy_score" (float_or_none (controversy soup).1) ∧
  returns_field net ticker "controversy_category_average"
    (float_or_none (controversy soup).2).
Proof.
  intros Hs Hok. split; intros log; rewrite scrape_esg_scores_eq; simpl;
    rewrite (scrape_result_served _ _ _ Hs);
    destruct (scrape_soup_returns soup Hok) as (total & env & soc & gov & ->);
    (eexists; split; [done|]); apply result_dict_lookup.
Qed.

(** *** The involvement table *)

Lemma involvement_row_entry m row :
  involvement_row m row =
  match row_entry row with
  | Some (p, v) => <[p := v]> m
  | None => m
  end.
Proof.
  unfold involvement_row, row_entry.
  destruct (find_all "td" any_tag row) as [|c0 [|c1 [|c2 l]]]; done.
Qed.

Lemma involvement_rows_snoc rows row :
  involvement_rows (rows ++ [row]) = involvement_row (involvement_rows rows) row.
Proof. unfold involvement_rows. by rewrite foldl_snoc. Qed.

Lemma involvement_rows_skip l1 row l2 :
  row_entry row = None →
  involvement_rows (l1 ++ row :: l2) = involvement_rows (l1 ++ l2).
Proof.
  intros Hrow. unfold involvement_rows. rewrite !foldl_app. simpl.
  by rewrite involvement_row_entry, Hrow.
Qed.

Lemma involvement_rows_lookup rows p v :
  involvement_rows rows !! p = Some v ↔
  ∃ l1 row l2, rows = l1 ++ row :: l2 ∧ row_entry row = Some (p, v) ∧ no_entry_for p l2.
Proof.
  unfold no_entry_for.
  revert v. induction rows as [|x rows IH] using rev_ind; intros v.
  - split.
    + unfold involvement_rows. simpl. by rewrite lookup_empty.
    + intros (l1 & row & l2 & Heq & _). by destruct l1.
  - rewrite involvement_rows_snoc, involvement_row_entry.
    assert (Hlast : ∀ l1 row l2, rows ++ [x] = l1 ++ row :: l2 →
              (l2 = [] ∧ row = x ∧ l1 = rows) ∨
              (∃ l2', l2 = l2' ++ [x] ∧ rows = l1 ++ row :: l2')).
    { intros l1 row l2 Heq. destruct l2 as [|y l2 _] using rev_ind.
      - left. apply app_inj_tail in Heq as [-> ->]. done.
      - right.
        change (l1 ++ row :: l2 ++ [y]) with (l1 ++ (row :: l2) ++ [y]) in Heq.
        rewrite app_assoc in Heq. apply app_inj_tail in Heq as [-> ->].
        by exists l2. }
    destruct (row_entry x) as [[q w]|] eqn:Ex.
    + destruct (decide (q = p)) as [->|Hne].
      * rewrite lookup_insert_eq. split.
        -- intros [= ->]. exists rows, x, []. repeat split; [done|]. constructor.
        -- intros (l1 & row & l2 & Heq & Hrow & Hno).
           destruct (Hlast _ _ _ Heq) as [(-> & -> & ->)|(l2' & -> & ->)].
           ++ congruence.
           ++ apply Forall_app in Hno as [_ Hx]. apply Forall_inv in Hx.
              by destruct (Hx w).
      * rewrite lookup_insert_ne by done. rewrite IH. split.
        -- intros (l1 & row & l2 & -> & Hrow & Hno).
           exists l1, row, (l2 ++ [x]). repeat split; [by rewrite <- app_assoc|done|].
           apply Forall_app. split; [done|]. apply Forall_singleton.
           intros v'. rewrite Ex. congruence.
        -- intros (l1 & row & l2 & Heq & Hrow & Hno).
           destruct (Hlast _ _ _ Heq) as [(-> & -> & ->)|(l2' & -> & ->)].
           ++ congruence.
           ++ apply Forall_app in Hno as [Hno _]. eauto 6.
    + rewrite IH. split.
      * intros (l1 & row & l2 & -> & Hrow & Hno).
        exists l1, row, (l2 ++ [x]). repeat split; [by rewrite <- app_assoc|done|].
        apply Forall_app. split; [done|]. apply Forall_singleton.
        intros v'. rewrite Ex. congruence.
      * intros (l1 & row & l2 & Heq & Hrow & Hno).
        destruct (Hlast _ _ _ Heq) as [(-> & -> & ->)|(l2' & -> & ->)].
        -- congruence.
        -- apply Forall_app in Hno as [Hno _]. eauto 6.
Qed.

Lemma involvement_areas_table soup sec table :
  find "section" (with_attr "data-testid" "involvement-areas") soup = Some sec →
  find "table" any_tag sec = Some table →
  involvement_areas soup = involvement_rows (tail (find_all "tr" any_tag table)).
Proof. unfold involvement_areas. by intros -> ->. Qed.

(** *** The controversy block *)

Lemma controversy_section_found soup sec :
  find "section" (with_attr "data-testid" "esg-controversy") soup = Some sec →
  controversy soup = (controversy_score_of sec, category_average_of sec).
Proof. unfold controversy. by intros ->. Qed.

(** *** The whole call *)

(** What a call returns: the dictionary with its eight keys for a response
    of status 200 whose score sections extract, [None] for any other
    status, and an exception when the request fails or a score section
    raises. *)
Lemma scrape_result_cases net ticker :
  match scrape_result net ticker with
  | Ret (Some data) =>
      (∃ soup, serves net ticker soup ∧ scores_extract soup) ∧
      dom data = result_keys ∧
      (∃ total, data !! "total" = Some (float_or_none total)) ∧
      (∃ m, data !! "involvement_areas" = Some (VDict m))
  | Ret None => ∃ resp, net (url_of ticker) = Ret resp ∧ status_code resp ≠ 200%Z
  | Raise e =>
      net (url_of ticker) = Raise e ∨
      (e = ValueError ∧ ∃ soup testid, serves net ticker soup ∧
         testid ∈ score_sections ∧ get_score soup testid = Raise ValueError)
  end.
Proof.
  unfold scrape_result. destruct (net (url_of ticker)) as [resp|e] eqn:Hn; simpl.
  2:{ by left. }
  destruct (decide (status_code resp ≠ 200%Z)) as [Hs|Hs]; simpl; [eauto|].
  apply dec_stable in Hs.
  assert (serves net ticker (body resp)) as Hserves by (exists resp; done).
  pose proof (scrape_soup_cases (body resp)) as Hc.
  destruct (scrape_soup (body resp)) as [data|e] eqn:Hsoup; simpl.
  - destruct Hc as (total & env & soc & gov & l1 & l2 & l3 & E1 & E2 & E3 & E4 & ->).
    split.
    { exists (body resp). split; [done|]. intros testid Hin.
      unfold score_sections in Hin.
      repeat (apply elem_of_cons in Hin as [->|Hin]; [congruence|]).
      by apply elem_of_nil in Hin. }
    split; [apply result_dict_dom|].
    split; [exists total.1|exists (involvement_areas (body resp))];
      apply result_dict_lookup.
  - destruct Hc as (-> & testid & Hin & Hr). right. split; [done|].
    by exists (body resp), testid.
Qed.

(** *** The claims on the routine *)

(** C2 (the code departs from it).  Field extraction is to be null-safe, an
    unparseable number giving a null field.  A missing section and a missing
    heading do give nulls ([get_score_absent], [get_score_no_heading]), but
    the number of a score heading is converted outside any handler: when
    the text of the [h4] of a score section is no number, [get_score]
    raises [ValueError], and so does the routine on that document and the
    whole call on a response that carries it. *)
Theorem get_score_unparseable_raises soup testid sec t :
  testid ∈ score_sections →
  find "section" (with_attr "data-testid" testid) soup = Some sec →
  find "h4" any_tag sec = Some t →
  float (strip (text t)) = None →
  get_score soup testid = Raise ValueError ∧
  scrape_soup soup = Raise ValueError ∧
  ∀ net ticker log, serves net ticker soup →
    (scrape_esg_scores net ticker log).1 = Raise ValueError.
Proof.
  intros Hin Hsec Hh4 Hfloat.
  pose proof (get_score_unparseable _ _ _ _ Hsec Hh4 Hfloat) as Hr.
  pose proof (scrape_soup_raises _ _ Hin Hr) as Hsoup.
  repeat split; [done..|].
  intros net ticker log Hs. rewrite scrape_esg_scores_eq. simpl.
  by rewrite (scrape_result_served _ _ _ Hs), Hsoup.
Qed.

(** C3, for the status check alone.  When the response of the GET has a status other than
    200, which every non-success status is, the routine returns [None] and
    raises nothing. *)
Theorem scrape_esg_scores_status_not_200 net ticker log resp :
  net (url_of ticker) = Ret resp →
  status_code resp ≠ 200%Z →
  (scrape_esg_scores net ticker log).1 = Ret None.
Proof.
  intros Hn Hs. rewrite scrape_esg_scores_eq. simpl. unfold scrape_result.
  rewrite Hn. simpl. by destruct (decide _).
Qed.

(** A request that fails is not handled: its exception leaves the call. *)
Lemma scrape_esg_scores_request_fails net ticker log e :
  net (url_of ticker) = Raise e →
  (scrape_esg_scores net ticker log).1 = Raise e.
Proof.
  intros Hn. rewrite scrape_esg_scores_eq. simpl. unfold scrape_result. by rewrite Hn.
Qed.

(** C4.  The mapping of the involvement table is built from the rows after
    the first one only: it is the fold of the two-cell rows among them, a
    product is mapped to the descriptor of the last such row that names it
    (and to nothing when no row names it), a table with its header row only
    gives the empty mapping, and this mapping is the [involvement_areas]
    field of the dictionary returned. *)
Theorem involvement_areas_last_row_wins soup sec table header data :
  find "section" (with_attr "data-testid" "involvement-areas") soup = Some sec →
  find "table" any_tag sec = Some table →
  find_all "tr" any_tag table = header :: data →
  involvement_areas soup = involvement_rows data ∧
  (∀ p v, involvement_areas soup !! p = Some v ↔
     ∃ l1 row l2, data = l1 ++ row :: l2 ∧ row_entry row = Some (p, v) ∧
                  no_entry_for p l2) ∧
  (data = [] → involvement_areas soup = ∅) ∧
  (∀ net ticker, serves net ticker soup → scores_extract soup →
     returns_field net ticker "involvement_areas" (VDict (involvement_rows data))).
Proof.
  intros Hsec Htable Hrows.
  assert (involvement_areas soup = involvement_rows data) as Heq.
  { rewrite (involvement_areas_table _ _ _ Hsec Htable), Hrows. done. }
  split; [done|]. split; [|split].
  - intros p v. rewrite Heq. apply involvement_rows_lookup.
  - intros ->. by rewrite Heq.
  - intros net ticker Hs Hok. rewrite <- Heq. by apply returns_involvement_areas.
Qed.

(** C5.  A row of the involvement table with a single [td] cell is
    skipped: the mapping is the one of the table without that row. *)
Theorem involvement_areas_one_cell_row_skipped soup sec table header l1 row l2 c :
  find "section" (with_attr "data-testid" "involvement-areas") soup = Some sec →
  find "table" any_tag sec = Some table →
  find_all "tr" any_tag table = header :: l1 ++ row :: l2 →
  find_all "td" any_tag row = [c] →
  row_entry row = None ∧
  (∀ m, involvement_row m row = m) ∧
  involvement_areas soup = involvement_rows (l1 ++ l2) ∧
  (∀ net ticker, serves net ticker soup → scores_extract soup →
     returns_field net ticker "involvement_areas" (VDict (involvement_rows (l1 ++ l2)))).
Proof.
  intros Hsec Htable Hrows Hcols.
  assert (row_entry row = None) as Hrow by (unfold row_entry; by rewrite Hcols).
  assert (involvement_areas soup = involvement_rows (l1 ++ l2)) as Heq.
  { rewrite (involvement_areas_table _ _ _ Hsec Htable), Hrows. simpl.
    by apply involvement_rows_skip. }
  split; [done|]. split; [|split; [done|]].
  - intros m. by rewrite involvement_row_entry, Hrow.
  - intros net ticker Hs Hok. rewrite <- Heq. by apply returns_involvement_areas.
Qed.

(** C7.  With a value element of two spans or more and a peer-score
    element, the controversy score is the number of the text of the first
    span and the category average the number of the text of the peer-score
    element, each [None] exactly when its own text is no number, whatever
    the other is; for the texts ["3"] and ["2.1"] the routine returns the
    numbers of ["3"] and of ["2.1"] in the two fields. *)
Theorem controversy_from_spans soup sec val_div s0 s1 rest tooltip_div peer_span :
  find "section" (with_attr "data-testid" "esg-controversy") soup = Some sec →
  find "div" (with_class "val yf-ye6fz0") sec = Some val_div →
  find_all "span" any_tag val_div = s0 :: s1 :: rest →
  find "div" (with_class "tooltip al-top yf-15g2hux") sec = Some tooltip_div →
  find "span" (with_class "peer-score yf-ye6fz0") tooltip_div = Some peer_span →
  controversy soup = (float (strip (text s0)), float (strip (text peer_span))) ∧
  (strip (text s0) = "3" → strip (text peer_span) = "2.1" →
   controversy soup = (float "3", float "2.1") ∧
   ∀ net ticker, serves net ticker soup → scores_extract soup →
     returns_field net ticker "controversy_score" (float_or_none (float "3")) ∧
     returns_field net ticker "controversy_category_average"
       (float_or_none (float "2.1"))).
Proof.
  intros Hsec Hval Hspans Htip Hpeer.
  assert (controversy soup = (float (strip (text s0)), float (strip (text peer_span))))
    as Heq.
  { rewrite (controversy_section_found _ _ Hsec).
    unfold controversy_score_of, category_average_of.
    rewrite Hval, Hspans, Htip, Hpeer. by rewrite !try_pass_float_of_text. }
  split; [done|]. intros H3 H21. rewrite H3, H21 in Heq. split; [done|].
  intros net ticker Hs Hok.
  destruct (returns_controversy _ _ _ Hs Hok) as [Hc Ha].
  rewrite Heq in Hc, Ha. done.
Qed.

(** C9.  With fewer than two spans in the value element the controversy
    score is [None], whatever the text of a span; with two spans or more it
    is the number of the text of the first span. *)
Theorem controversy_score_two_spans soup sec val_div :
  find "section" (with_attr "data-testid" "esg-controversy") soup = Some sec →
  find "div" (with_class "val yf-ye6fz0") sec = Some val_div →
  ((length (find_all "span" any_tag val_div) < 2)%nat →
     (controversy soup).1 = None ∧
     ∀ net ticker, serves net ticker soup → scores_extract soup →
       returns_field net ticker "controversy_score" VNone) ∧
  ((2 ≤ length (find_all "span" any_tag val_div))%nat →
     ∃ s0, head (find_all "span" any_tag val_div) = Some s0 ∧
           (controversy soup).1 = float (strip (text s0))).
Proof.
  intros Hsec Hval. rewrite (controversy_section_found _ _ Hsec). simpl.
  unfold controversy_score_of. rewrite Hval.
  destruct (find_all "span" any_tag val_div) as [|s0 [|s1 rest]] eqn:Hspans;
    simpl; (split; [intros Hlen|intros Hlen; try lia]).
  - split; [done|]. intros net ticker Hs Hok.
    destruct (returns_controversy _ _ _ Hs Hok) as [Hc _].
    rewrite (controversy_section_found _ _ Hsec) in Hc. simpl in Hc.
    unfold controversy_score_of in Hc. by rewrite Hval, Hspans in Hc.
  - split; [done|]. intros net ticker Hs Hok.
    destruct (returns_controversy _ _ _ Hs Hok) as [Hc _].
    rewrite (controversy_section_found _ _ Hsec) in Hc. simpl in Hc.
    unfold controversy_score_of in Hc. by rewrite Hval, Hspans in Hc.
  - lia.
  - exists s0. by rewrite try_pass_float_of_text.
Qed.

(** C10 (the code departs from it).  A response of status 200 is to give a
    dictionary with the eight fields.  It does whenever the call returns
    ([scrape_result_cases]), but a score section that raises leaves the
    call with [ValueError] and no dictionary. *)
Theorem scrape_esg_scores_no_record net ticker log soup testid :
  serves net ticker soup →
  testid ∈ score_sections →
  get_score soup testid = Raise ValueError →
  (scrape_esg_scores net ticker log).1 = Raise ValueError ∧
  ¬ ∃ data, (scrape_esg_scores net ticker log).1 = Ret (Some data).
Proof.
  intros Hs Hin Hr.
  assert ((scrape_esg_scores net ticker log).1 = Raise ValueError) as Heq.
  { rewrite scrape_esg_scores_eq. simpl.
    by rewrite (scrape_result_served _ _ _ Hs), (scrape_soup_raises _ _ Hin Hr). }
  split; [done|]. intros [data Hd]. congruence.
Qed.

End ScrapeFacts.

(** ** Properties of the fetch layer *)

Section AppFacts.
Context `{Builtins}.

Lemma result_row_keys t data :
  dom data = result_keys →
  ∃ total, data !! "total" = Some total ∧
    result_row t (Some data) =
      Ret (if is_none total then None else Some (table_row t data)).
Proof.
  intros Hdom.
  assert (∀ k, k ∈ result_keys → is_Some (data !! k)) as Hk.
  { intros k Hin. apply elem_of_dom. by rewrite Hdom. }
  destruct (Hk "total") as [total Ht]; [set_solver|].
  destruct (Hk "total_level") as [v1 H1]; [set_solver|].
  destruct (Hk "environmental") as [v2 H2]; [set_solver|].
  destruct (Hk "social") as [v3 H3]; [set_solver|].
  destruct (Hk "governance") as [v4 H4]; [set_solver|].
  destruct (Hk "controversy_score") as [v5 H5]; [set_solver|].
  destruct (Hk "controversy_category_average") as [v6 H6]; [set_solver|].
  exists total. split; [done|]. unfold result_row.
  destruct (decide (size data = 0)) as [Hz|_].
  { apply map_size_empty_iff in Hz. subst. by rewrite lookup_empty in Ht. }
  unfold getitem, table_row. rewrite Ht. simpl.
  destruct (is_none total); [done|].
  rewrite H1, H2, H3, H4, H5, H6. done.
Qed.

(** One turn of the loop on what the routine gave for the ticker. *)
Lemma result_row_scrape net t :
  scrape_result net t ≫= result_row t =
  match scrape_result net t with
  | Raise e => Raise e
  | Ret _ => Ret (if has_total net t then Some (row_for net t) else None)
  end.
Proof.
  unfold has_total, row_for.
  pose proof (scrape_result_cases net t) as Hc.
  destruct (scrape_result net t) as [[data|]|e]; [|done..].
  destruct Hc as (_ & Hdom & _).
  change (Ret (Some data) ≫= result_row t) with (result_row t (Some data)).
  destruct (result_row_keys t data Hdom) as (total & Ht & ->).
  rewrite Ht. by destruct (is_none total).
Qed.

Lemma fetch_loop_cons net t ts results n log :
  fetch_loop net (t :: ts) results n log =
  match scrape_result net t ≫= result_row t with
  | Raise e => (Raise e, log ++ [url_of t])
  | Ret None => fetch_loop net ts results n (log ++ [url_of t])
  | Ret (Some row) => fetch_loop net ts (results ++ [row]) (n + 1) (log ++ [url_of t])
  end.
Proof. reflexivity. Qed.

Lemma fetch_loop_cases net ts results n log :
  match (fetch_loop net ts results n log).1 with
  | Ret (rows, valid_count) =>
      rows = results ++ (row_for net <$> List.filter (has_total net) ts) ∧
      valid_count = n + length (List.filter (has_total net) ts)
  | Raise e => ∃ t, t ∈ ts ∧ scrape_result net t = Raise e
  end.
Proof.
  revert results n log. induction ts as [|t ts IH]; intros results n log.
  - simpl. by rewrite app_nil_r, Nat.add_0_r.
  - rewrite fetch_loop_cons, result_row_scrape.
    destruct (scrape_result net t) as [data|e] eqn:Hd; simpl.
    2:{ exists t. split; [left|done]. }
    destruct (has_total net t) eqn:Hv.
    + specialize (IH (results ++ [row_for net t]) (n + 1) (log ++ [url_of t])).
      destruct (fetch_loop net ts _ _ _).1 as [[rows c]|e].
      * destruct IH as [-> ->]. simpl. rewrite <- app_assoc. split; [done|lia].
      * destruct IH as (t' & Hin & Ht'). exists t'. split; [by right|done].
    + specialize (IH results n (log ++ [url_of t])).
      destruct (fetch_loop net ts _ _ _).1 as [[rows c]|e]; [done|].
      destruct IH as (t' & Hin & Ht'). exists t'. split; [by right|done].
Qed.

(** A call that returns has requested every ticker of the list, once each
    and in order. *)
Lemma fetch_loop_requests net ts results n log v log' :
  fetch_loop net ts results n log = (Ret v, log') →
  log' = log ++ (url_of <$> ts).
Proof.
  revert results n log. induction ts as [|t ts IH]; intros results n log.
  - simpl. intros [= _ <-]. by rewrite app_nil_r.
  - rewrite fetch_loop_cons.
    destruct (scrape_result net t ≫= result_row t) as [[row|]|e]; [..|done];
      intros Hl; apply IH in Hl; rewrite Hl, <- app_assoc; done.
Qed.

Lemma row_for_total net t :
  has_total net t = true →
  row_for net t !! "Ticker" = Some (VStr t) ∧
  ∃ total, row_for net t !! "Total ESG Risk Score" = Some total ∧ total ≠ VNone.
Proof.
  unfold has_total, row_for.
  destruct (scrape_result net t) as [[data|]|e]; [|done..].
  destruct (data !! "total") as [total|] eqn:Ht; [|done].
  intros Hn. split; [done|]. exists total. split.
  - unfold table_row. change (Some total) with (Some (default VNone (Some total))).
    rewrite <- Ht. reflexivity.
  - by destruct total.
Qed.

(** *** The sidebar input *)

Lemma unique_from_spec seen l :
  NoDup (unique_from seen l) ∧
  ∀ x, x ∈ unique_from seen l ↔ x ∈ l ∧ x ∉ seen.
Proof.
  revert seen. induction l as [|y l IH]; intros seen; simpl.
  - split; [constructor|]. intros x. rewrite elem_of_nil. tauto.
  - destruct (decide (y ∈ seen)) as [Hin|Hout].
    + destruct (IH seen) as [Hnd Hmem]. split; [done|].
      intros x. rewrite Hmem, elem_of_cons.
      split; [tauto|]. intros [[->|Hx] Hs]; [contradiction|tauto].
    + destruct (IH (y :: seen)) as [Hnd Hmem]. split.
      * constructor; [|done]. rewrite Hmem, not_elem_of_cons. tauto.
      * intros x. rewrite !elem_of_cons, Hmem, not_elem_of_cons.
        destruct (decide (x = y)) as [->|Hne]; tauto.
Qed.

Lemma unique_spec l : NoDup (unique l) ∧ ∀ x, x ∈ unique l ↔ x ∈ l.
Proof.
  destruct (unique_from_spec [] l) as [Hnd Hmem]. split; [done|].
  intros x. unfold unique. rewrite Hmem, elem_of_nil. tauto.
Qed.

Lemma elem_of_dropna col s : s ∈ dropna col ↔ Some s ∈ col.
Proof.
  unfold dropna. rewrite list_elem_of_omap. split.
  - intros (o & Hin & Ho). simpl in Ho. by subst.
  - intros Hin. by exists (Some s).
Qed.

(** *** The claims on the fetch layer *)

(** C1.  When [fetch_data] returns, its table has one row for each ticker
    of the list whose fetch result is not null and has a total score that
    is not null, in the order of the list, and no other row: a result
    that is null or has a null total leaves no row.  The count returned is
    the number of these tickers.  The call returns unless the routine
    raised for a ticker of the list. *)
Theorem fetch_data_table net ts log :
  match (fetch_data net ts log).1 with
  | Ret (rows, valid_count) =>
      rows = row_for net <$> List.filter (has_total net) ts ∧
      (λ row, row !! "Ticker") <$> rows =
        (λ t, Some (VStr t)) <$> List.filter (has_total net) ts ∧
      Forall (λ row, ∃ total,
                row !! "Total ESG Risk Score" = Some total ∧ total ≠ VNone) rows ∧
      valid_count = length (List.filter (has_total net) ts) ∧
      valid_count = length rows
  | Raise e => ∃ t, t ∈ ts ∧ scrape_result net t = Raise e
  end.
Proof.
  unfold fetch_data. pose proof (fetch_loop_cases net ts [] 0 log) as Hc.
  destruct (fetch_loop net ts [] 0 log).1 as [[rows c]|e]; [|done].
  destruct Hc as [-> ->]. simpl.
  assert (∀ t, t ∈ List.filter (has_total net) ts → has_total net t = true) as Hf.
  { intros t Hin. apply list_elem_of_In, filter_In in Hin. tauto. }
  split; [done|]. split; [|split; [|split; [done|by rewrite length_fmap]]].
  - rewrite <- list_fmap_compose. apply list_fmap_ext.
    intros i t Hin. simpl. by apply row_for_total, Hf, (list_elem_of_lookup_2 _ i).
  - apply Forall_fmap, Forall_forall. intros t Hin. simpl.
    by apply row_for_total, Hf.
Qed.

Lemma fetch_data_returns net ts log :
  (∀ t e, t ∈ ts → scrape_result net t ≠ Raise e) →
  ∃ rows valid_count, (fetch_data net ts log).1 = Ret (rows, valid_count).
Proof.
  intros Hok. pose proof (fetch_data_table net ts log) as Hc.
  destruct (fetch_data net ts log).1 as [[rows c]|e]; [eauto|].
  destruct Hc as (t & Hin & Hr). by destruct (Hok t e Hin).
Qed.

(** C6.  The list handed to [fetch_data] holds no ticker twice and each
    of its tickers is the upper case of an input: of the text entry when
    there is one, of a cell of the [Ticker] column of the uploaded file
    otherwise (and then every cell that is not missing is there). *)
Theorem fetch_argument_upper_unique uploaded_file single_ticker ts :
  fetch_argument uploaded_file single_ticker = Some ts →
  NoDup ts ∧
  Forall (λ t, ∃ s, t = upper s) ts ∧
  (single_ticker ≠ "" → ts = [upper single_ticker]) ∧
  (single_ticker = "" →
     ∃ df col, uploaded_file = Some (Ret df) ∧ df !! "Ticker" = Some col ∧
       ts = unique (upper <$> dropna col) ∧
       ∀ t, t ∈ ts ↔ ∃ s, Some s ∈ col ∧ t = upper s).
Proof.
  unfold fetch_argument.
  destruct (tickers uploaded_file single_ticker) as [|t0 ts'] eqn:Ht; [done|].
  intros [= <-]. revert Ht. unfold tickers.
  destruct (decide (single_ticker = "")) as [->|Hne].
  - unfold uploaded_tickers.
    destruct uploaded_file as [[df|e]|]; [|done..].
    destruct (df !! "Ticker") as [col|] eqn:Hcol; [|done].
    intros Ht. rewrite <- Ht.
    destruct (unique_spec (upper <$> dropna col)) as [Hnd Hmem].
    assert (∀ t, t ∈ unique (upper <$> dropna col) ↔ ∃ s, Some s ∈ col ∧ t = upper s)
      as Hin.
    { intros t. rewrite Hmem, list_elem_of_fmap. split.
      - intros (s & -> & Hs). exists s. by rewrite <- elem_of_dropna.
      - intros (s & Hs & ->). exists s. by rewrite elem_of_dropna. }
    split; [done|]. split; [|split; [done|]].
    + apply Forall_forall. intros t Hi. apply Hin in Hi as (s & _ & ->). eauto.
    + intros _. exists df, col. done.
  - intros [= <- <-]. split; [apply NoDup_singleton|].
    split; [|split; [done|done]].
    apply Forall_singleton. eauto.
Qed.

(** C8.  After a call of the memoized [fetch_data] that returned, a second
    call with the same list returns the same result from the store and
    requests nothing, whatever the network is by then; when the first call
    was not itself answered from the store it requested each ticker of the
    list once, in order. *)
Theorem cached_fetch_data_twice net1 net2 ts s v s1 :
  cached_fetch_data net1 ts s = (Ret v, s1) →
  cached_fetch_data net2 ts s1 = (Ret v, s1) ∧
  (cache s !! ts = None → requests s1 = requests s ++ (url_of <$> ts)) ∧
  (is_Some (cache s !! ts) → requests s1 = requests s).
Proof.
  unfold cached_fetch_data at 1.
  destruct (cache s !! ts) as [v0|] eqn:Hc.
  - intros [= <- <-]. unfold cached_fetch_data. rewrite Hc. done.
  - destruct (fetch_data net1 ts (requests s)) as [r log] eqn:Hf.
    destruct r as [v1|e]; [|done]. intros [= <- <-].
    unfold cached_fetch_data. simpl. rewrite lookup_insert_eq.
    split; [done|]. split.
    + intros _. unfold fetch_data in Hf. by apply fetch_loop_requests in Hf.
    + by intros [? ?].
Qed.

(** The memoized call returns whenever the routine raises for no ticker of
    the list. *)
Lemma cached_fetch_data_returns net ts s :
  (∀ t e, t ∈ ts → scrape_result net t ≠ Raise e) →
  ∃ v s1, cached_fetch_data net ts s = (Ret v, s1).
Proof.
  intros Hok. unfold cached_fetch_data.
  destruct (cache s !! ts) as [v0|]; [eauto|].
  destruct (fetch_data_returns net ts (requests s) Hok) as (rows & c & Hr).
  destruct (fetch_data net ts (requests s)) as [r log]. simpl in Hr. subst r. eauto.
Qed.

End AppFacts.

(** ** Further properties of the routine *)

Section MoreScrapeFacts.
Context `{Builtins}.

Lemma get_score_raise_inv soup testid e :
  get_score soup testid = Raise e →
  ∃ sec t,
    find "section" (with_attr "data-testid" testid) soup = Some sec ∧
    find "h4" any_tag sec = Some t ∧
    float (strip (text t)) = None.
Proof.
  unfold get_score, float_of_text.
  destruct (find "section" _ soup) as [sec|]; [|done].
  destruct (find "h4" any_tag sec) as [t|] eqn:Hh4; [|done].
  destruct (float (strip (text t))) eqn:Hf; simpl; [done|]. intros _.
  by exists sec, t.
Qed.

(** [get_score] raises in one case only, and then [ValueError]: the section
    is there, it has an [h4], and the text of the first [h4] is no number. *)
Theorem get_score_raises_iff soup testid e :
  get_score soup testid = Raise e ↔
  e = ValueError ∧
  ∃ sec t,
    find "section" (with_attr "data-testid" testid) soup = Some sec ∧
    find "h4" any_tag sec = Some t ∧
    float (strip (text t)) = None.
Proof.
  split.
  - intros Hr. split; [by apply get_score_raise in Hr|by apply get_score_raise_inv in Hr].
  - intros (-> & sec & t & Hsec & Hh4 & Hf). by apply (get_score_unparseable _ _ sec t).
Qed.


(** The call returns [None] exactly when the request gave a response whose
    status is not 200. *)
Theorem scrape_esg_scores_none_iff net ticker log :
  (scrape_esg_scores net ticker log).1 = Ret None ↔
  ∃ resp, net (url_of ticker) = Ret resp ∧ status_code resp ≠ 200%Z.
Proof.
  rewrite scrape_esg_scores_eq. simpl. split.
  - intros Hr. pose proof (scrape_result_cases net ticker) as Hc.
    rewrite Hr in Hc. exact Hc.
  - intros (resp & Hn & Hs). unfold scrape_result. rewrite Hn. simpl.
    by destruct (decide _).
Qed.

Lemma scrape_result_some_inv net ticker data :
  scrape_result net ticker = Ret (Some data) →
  ∃ soup total env soc gov l1 l2 l3,
    serves net ticker soup ∧
    get_score soup "TOTAL_ESG_SCORE" = Ret total ∧
    get_score soup "ENVIRONMENTAL_SCORE" = Ret (env, l1) ∧
    get_score soup "SOCIAL_SCORE" = Ret (soc, l2) ∧
    get_score soup "GOVERNANCE_SCORE" = Ret (gov, l3) ∧
    data = result_dict total env soc gov soup.
Proof.
  unfold scrape_result. destruct (net (url_of ticker)) as [resp|e] eqn:Hn; [|done]. simpl.
  destruct (decide (status_code resp ≠ 200%Z)) as [Hs|Hs]; [done|].
  apply dec_stable in Hs.
  pose proof (scrape_soup_cases (body resp)) as Hc.
  destruct (scrape_soup (body resp)) as [d|e]; [|done]. simpl. intros [= <-].
  destruct Hc as (total & env & soc & gov & l1 & l2 & l3 & E1 & E2 & E3 & E4 & ->).
  exists (body resp), total, env, soc, gov, l1, l2, l3.
  repeat split; try done. by exists resp.
Qed.

(** A dictionary the call returns has the eight keys and nothing else;
    the total, the three sub-scores and the two controversy fields are a
    number or [None], the level a string or [None], and the involvement
    areas a dictionary. *)
Theorem scrape_esg_scores_record net ticker log data :
  (scrape_esg_scores net ticker log).1 = Ret (Some data) →
  dom data = result_keys ∧
  (∀ k, k ∈ ["total"; "environmental"; "social"; "governance";
              "controversy_score"; "controversy_category_average"] →
        ∃ o, data !! k = Some (float_or_none o)) ∧
  (∃ o, data !! "total_level" = Some (str_or_none o)) ∧
  (∃ m, data !! "involvement_areas" = Some (VDict m)).
Proof.
  rewrite scrape_esg_scores_eq. simpl. intros Hr.
  apply scrape_result_some_inv in Hr
    as (soup & total & env & soc & gov & l1 & l2 & l3 & _ & _ & _ & _ & _ & ->).
  pose proof (result_dict_lookup total env soc gov soup) as Hl. simpl in Hl.
  destruct Hl as (H1 & H2 & H3 & H4 & H5 & H6 & H7 & H8).
  split; [apply result_dict_dom|]. split; [|split; eauto].
  intros k Hin.
  repeat (apply elem_of_cons in Hin as [->|Hin]; [eauto|]).
  by apply elem_of_nil in Hin.
Qed.

(** A page of status 200 that has none of the sections gives a dictionary
    of nulls with an empty mapping, and raises nothing. *)
Theorem scrape_esg_scores_blank_page net ticker log soup :
  serves net ticker soup →
  (∀ testid, find "section" (with_attr "data-testid" testid) soup = None) →
  ∃ data,
    (scrape_esg_scores net ticker log).1 = Ret (Some data) ∧
    data !! "involvement_areas" = Some (VDict ∅) ∧
    ∀ k, k ∈ result_keys → k ≠ "involvement_areas" → data !! k = Some VNone.
Proof.
  intros Hs Hnone. rewrite scrape_esg_scores_eq. simpl.
  rewrite (scrape_result_served _ _ _ Hs). unfold scrape_soup.
  rewrite !get_score_absent by apply Hnone. simpl.
  unfold controversy, involvement_areas. rewrite !Hnone.
  eexists. split; [reflexivity|]. split; [reflexivity|].
  intros k Hin Hne. unfold result_keys in Hin.
  repeat (apply elem_of_union in Hin as [Hin|Hin]);
    apply elem_of_singleton in Hin as ->; done.
Qed.

(** A row of the involvement table whose number of [td] cells is not two
    (none, one, three or more) is skipped, wherever it stands. *)
Theorem involvement_row_not_two_cells row :
  length (find_all "td" any_tag row) ≠ 2%nat →
  (∀ m, involvement_row m row = m) ∧
  ∀ l1 l2, involvement_rows (l1 ++ row :: l2) = involvement_rows (l1 ++ l2).
Proof.
  intros Hlen.
  assert (row_entry row = None) as Hrow.
  { unfold row_entry. by destruct (find_all "td" any_tag row) as [|c0 [|c1 [|c2 l]]]. }
  split.
  - intros m. by rewrite involvement_row_entry, Hrow.
  - intros l1 l2. by apply involvement_rows_skip.
Qed.

Lemma involvement_rows_dom rows p :
  p ∈ dom (involvement_rows rows) ↔ ∃ row v, row ∈ rows ∧ row_entry row = Some (p, v).
Proof.
  rewrite elem_of_dom. split.
  - intros [v Hv]. apply involvement_rows_lookup in Hv as (l1 & row & l2 & -> & Hrow & _).
    exists row, v. split; [|done]. apply elem_of_app. right. left.
  - intros (row & v & Hin & Hrow).
    induction rows as [|x rows IH] using rev_ind; [by apply elem_of_nil in Hin|].
    rewrite involvement_rows_snoc, involvement_row_entry.
    apply elem_of_app in Hin as [Hin|Hin].
    + destruct (IH Hin) as [w Hw]. destruct (row_entry x) as [[q u]|]; [|eauto].
      destruct (decide (q = p)) as [->|Hne].
      * rewrite lookup_insert_eq. eauto.
      * rewrite lookup_insert_ne by done. eauto.
    + apply list_elem_of_singleton in Hin as ->. rewrite Hrow, lookup_insert_eq. eauto.
Qed.

(** The products of the mapping are the first cells of the two-cell rows,
    and the mapping has at most as many entries as there are such rows. *)
Theorem involvement_rows_products rows :
  (∀ p, p ∈ dom (involvement_rows rows) ↔
        ∃ row v, row ∈ rows ∧ row_entry row = Some (p, v)) ∧
  (size (involvement_rows rows) ≤ length (omap row_entry rows))%nat ∧
  (length (omap row_entry rows) ≤ length rows)%nat.
Proof.
  split; [intros p; apply involvement_rows_dom|]. split.
  - induction rows as [|x rows IH] using rev_ind; [done|].
    rewrite involvement_rows_snoc, involvement_row_entry, omap_app, length_app.
    change (omap row_entry [x])
      with (match row_entry x with Some y => [y] | None => [] end).
    destruct (row_entry x) as [[q u]|]; simpl; [|lia].
    destruct (involvement_rows rows !! q) as [w|] eqn:Hq.
    + rewrite map_size_insert_Some by eauto. lia.
    + rewrite map_size_insert_None by done. lia.
  - induction rows as [|x rows IH]; [done|].
    change (omap row_entry (x :: rows))
      with (match row_entry x with
            | Some y => y :: omap row_entry rows
            | None => omap row_entry rows
            end).
    destruct (row_entry x); simpl; lia.
Qed.

End MoreScrapeFacts.

(** ** Further properties of the fetch layer *)

Section MoreAppFacts.
Context `{Builtins}.

(** *** The loop of [fetch_data] *)

Lemma fetch_loop_acc net ts results n log :
  fetch_loop net ts results n log =
  match fetch_loop net ts [] 0 log with
  | (Ret (rows, c), log') => (Ret (results ++ rows, n + c), log')
  | (Raise e, log') => (Raise e, log')
  end.
Proof.
  revert results n log. induction ts as [|t ts IH]; intros results n log.
  - simpl. by rewrite app_nil_r, Nat.add_0_r.
  - rewrite !fetch_loop_cons.
    destruct (scrape_result net t ≫= result_row t) as [[row|]|e]; [|by apply IH|done].
    rewrite (IH (results ++ [row])), (IH ([] ++ [row])).
    destruct (fetch_loop net ts [] 0 (log ++ [url_of t])) as [[[rows c]|e] log']; [|done].
    simpl. rewrite <- app_assoc. simpl. do 2 f_equal. f_equal. lia.
Qed.

Lemma fetch_loop_app net ts1 ts2 results n log :
  fetch_loop net (ts1 ++ ts2) results n log =
  match fetch_loop net ts1 results n log with
  | (Ret (rows, c), log') => fetch_loop net ts2 rows c log'
  | (Raise e, log') => (Raise e, log')
  end.
Proof.
  revert results n log. induction ts1 as [|t ts1 IH]; intros results n log; [done|].
  rewrite <- app_comm_cons, !fetch_loop_cons.
  destruct (scrape_result net t ≫= result_row t) as [[row|]|e]; [apply IH..|done].
Qed.

Lemma fetch_loop_effect net ts results n log :
  (fetch_loop net ts results n log).2 = log ++ (url_of <$> requested net ts) ∧
  match first_raise net ts with
  | Some e => (fetch_loop net ts results n log).1 = Raise e
  | None => requested net ts = ts ∧ ∃ v, (fetch_loop net ts results n log).1 = Ret v
  end.
Proof.
  revert results n log. induction ts as [|t ts IH]; intros results n log.
  - simpl. rewrite app_nil_r. eauto.
  - rewrite fetch_loop_cons, result_row_scrape. simpl.
    destruct (scrape_result net t) as [data|e]; [|done].
    assert (∀ results n,
      (fetch_loop net ts results n (log ++ [url_of t])).2 =
        log ++ url_of t :: (url_of <$> requested net ts) ∧
      match first_raise net ts with
      | Some e => (fetch_loop net ts results n (log ++ [url_of t])).1 = Raise e
      | None => t :: requested net ts = t :: ts ∧
                ∃ v, (fetch_loop net ts results n (log ++ [url_of t])).1 = Ret v
      end) as Hstep.
    { intros results' n'. destruct (IH results' n' (log ++ [url_of t])) as [Hl Hr].
      rewrite Hl, <- app_assoc. split; [done|].
      destruct (first_raise net ts); [done|]. destruct Hr as [-> Hv]. done. }
    destruct (has_total net t); apply Hstep.
Qed.

(** [fetch_data] stops at the first ticker the routine raises for: the call
    raises that exception, the tickers up to that one were requested, once
    each and in order, and the ones after it were not.  When the routine
    raises for no ticker the call returns and every ticker of the list was
    requested. *)
Theorem fetch_data_stops_at_first_raise net ts log :
  (fetch_data net ts log).2 = log ++ (url_of <$> requested net ts) ∧
  match first_raise net ts with
  | Some e => (fetch_data net ts log).1 = Raise e
  | None => requested net ts = ts ∧ ∃ v, (fetch_data net ts log).1 = Ret v
  end ∧
  ∀ l1 t l2 e,
    ts = l1 ++ t :: l2 →
    (∀ t' e', t' ∈ l1 → scrape_result net t' ≠ Raise e') →
    scrape_result net t = Raise e →
    first_raise net ts = Some e ∧ requested net ts = l1 ++ [t].
Proof.
  unfold fetch_data. destruct (fetch_loop_effect net ts [] 0 log) as [Hl Hr].
  split; [done|]. split; [done|].
  intros l1 t l2 e -> Hok Ht. clear Hl Hr.
  induction l1 as [|t' l1 IH]; simpl.
  - by rewrite Ht.
  - destruct (scrape_result net t') as [d|e'] eqn:Ht'.
    + destruct IH as [-> ->]; [|done]. intros t'' e'' Hin. apply Hok. by right.
    + destruct (Hok t' e'); [left|done].
Qed.

(** [fetch_data] on a list in two parts is [fetch_data] on the first part
    and then on the second: the rows are appended, the counts added, the
    requests of the second part follow those of the first, and an
    exception in the first part ends the call. *)
Theorem fetch_data_app net ts1 ts2 log :
  fetch_data net (ts1 ++ ts2) log =
  match fetch_data net ts1 log with
  | (Raise e, log1) => (Raise e, log1)
  | (Ret (rows1, n1), log1) =>
      match fetch_data net ts2 log1 with
      | (Raise e, log2) => (Raise e, log2)
      | (Ret (rows2, n2), log2) => (Ret (rows1 ++ rows2, n1 + n2), log2)
      end
  end.
Proof.
  unfold fetch_data. rewrite fetch_loop_app.
  destruct (fetch_loop net ts1 [] 0 log) as [[[rows1 n1]|e] log1]; [|done].
  apply fetch_loop_acc.
Qed.

(** *** The rows of the table *)

Lemma list_filter_sublist {A} (f : A → bool) (l : list A) : List.filter f l `sublist_of` l.
Proof.
  induction l as [|x l IH]; simpl; [done|].
  destruct (f x); [by apply sublist_skip|by apply sublist_cons].
Qed.

Lemma ticker_options_fmap_row_for net (l : list string) :
  Forall (λ t, has_total net t = true) l →
  ticker_options (row_for net <$> l) = VStr <$> l.
Proof.
  intros Hl. unfold ticker_options. rewrite <- list_fmap_compose.
  apply list_fmap_ext. intros i t Hi. simpl.
  pose proof (Forall_lookup_1 _ _ _ _ Hl Hi) as Ht. simpl in Ht.
  apply row_for_total in Ht as [-> _]. done.
Qed.

Lemma list_filter_Forall {A} (f : A → bool) (l : list A) :
  Forall (λ x, f x = true) (List.filter f l).
Proof.
  apply Forall_forall. intros x Hin. apply list_elem_of_In, filter_In in Hin. tauto.
Qed.

Lemma table_row_dom t data : dom (table_row t data) = row_columns.
Proof.
  unfold table_row, row_columns. rewrite dom_list_to_map_L. simpl. set_solver.
Qed.

Lemma row_for_ok net t : has_total net t = true → row_ok (row_for net t).
Proof.
  intros Ht. destruct (row_for_total net t Ht) as (Htick & Htotal).
  unfold row_ok. split; [|split; [eauto|split; [done|]]].
  - unfold row_for. unfold has_total in Ht.
    destruct (scrape_result net t) as [[data|]|e]; [|done..]. apply table_row_dom.
  - unfold has_total in Ht. unfold row_for.
    pose proof (scrape_result_cases net t) as Hc.
    destruct (scrape_result net t) as [[data|]|e]; [|done..].
    destruct Hc as (_ & _ & _ & m & Hm). exists m.
    unfold table_row.
    change (Some (VDict m)) with (Some (default (VDict ∅) (Some (VDict m)))).
    rewrite <- Hm. reflexivity.
Qed.

Lemma fetch_data_table_ok_aux net ts log v :
  (fetch_data net ts log).1 = Ret v → table_ok ts v.
Proof.
  unfold fetch_data. intros Hv.
  pose proof (fetch_loop_cases net ts [] 0 log) as Hc. rewrite Hv in Hc.
  destruct v as [rows n]. destruct Hc as [-> ->]. simpl.
  pose proof (list_filter_Forall (has_total net) ts) as Hf.
  pose proof (list_filter_sublist (has_total net) ts) as Hsub.
  split; [|split]; simpl.
  - by rewrite length_fmap.
  - rewrite (ticker_options_fmap_row_for _ _ Hf). by apply fmap_sublist.
  - apply Forall_fmap. eapply Forall_impl; [exact Hf|].
    intros t Ht. by apply row_for_ok.
Qed.

(** A table [fetch_data] returns has as many rows as its count says and
    no more than there are tickers; the tickers of its rows are a
    selection of the list in the order of the list; every row has the nine
    columns, a ticker, a total that is not null and a dictionary of
    involvement areas. *)
Theorem fetch_data_table_ok net ts log v :
  (fetch_data net ts log).1 = Ret v →
  table_ok ts v ∧ (v.2 ≤ length ts)%nat.
Proof.
  intros Hv. pose proof (fetch_data_table_ok_aux _ _ _ _ Hv) as Hok.
  split; [done|]. destruct v as [rows n]. destruct Hok as (Hn & Hsub & _).
  simpl in *. subst n. apply sublist_length in Hsub. unfold ticker_options in Hsub.
  by rewrite !length_fmap in Hsub.
Qed.

(** A ticker whose page (status 200, score sections that extract) has no
    total score, because the section or its [h4] is missing, has no row in
    the table of any list. *)
Theorem fetch_data_no_total_no_row net t soup :
  serves net t soup → scores_extract soup →
  (find "section" (with_attr "data-testid" "TOTAL_ESG_SCORE") soup = None ∨
   ∃ sec, find "section" (with_attr "data-testid" "TOTAL_ESG_SCORE") soup = Some sec ∧
          find "h4" any_tag sec = None) →
  has_total net t = false ∧
  ∀ ts log rows n, (fetch_data net ts log).1 = Ret (rows, n) → VStr t ∉ ticker_options rows.
Proof.
  intros Hs Hok Hmiss.
  assert (has_total net t = false) as Hno.
  { unfold has_total. rewrite (scrape_result_served _ _ _ Hs).
    pose proof (scrape_soup_cases soup) as Hc.
    destruct (scrape_soup_returns soup Hok) as (total & env & soc & gov & Hr).
    rewrite Hr in Hc. rewrite Hr. simpl.
    destruct Hc as (total' & env' & soc' & gov' & l1 & l2 & l3 & E1 & _ & _ & _ & ->).
    assert (total'.1 = None) as Ht.
    { destruct Hmiss as [Hnone|(sec & Hsec & Hh4)].
      - rewrite (get_score_absent _ _ Hnone) in E1. by injection E1 as <-.
      - destruct (get_score_no_heading _ _ _ Hsec Hh4) as [lvl Hl].
        rewrite Hl in E1. by injection E1 as <-. }
    destruct (result_dict_lookup total' env' soc' gov' soup) as (-> & _).
    by rewrite Ht. }
  split; [done|]. intros ts log rows n Hr. unfold fetch_data in Hr.
  pose proof (fetch_loop_cases net ts [] 0 log) as Hc. rewrite Hr in Hc.
  destruct Hc as [-> _]. simpl.
  rewrite (ticker_options_fmap_row_for _ _ (list_filter_Forall _ _)).
  intros Hin. apply list_elem_of_fmap in Hin as (t' & [= <-] & Hin).
  apply list_elem_of_In, filter_In in Hin as [_ Hin]. congruence.
Qed.

(** *** The sidebar input *)

Lemma unique_from_nil seen l : unique_from seen l = [] ↔ ∀ x, x ∈ l → x ∈ seen.
Proof.
  revert seen. induction l as [|y l IH]; intros seen; simpl.
  - split; [|done]. intros _ x Hx. by apply elem_of_nil in Hx.
  - destruct (decide (y ∈ seen)) as [Hin|Hout].
    + rewrite IH. split.
      * intros Hl x [->|Hx]%elem_of_cons; auto.
      * intros Hl x Hx. apply Hl. by right.
    + split; [done|]. intros Hl. destruct Hout. apply Hl. left.
Qed.

Lemma unique_nil l : unique l = [] ↔ l = [].
Proof.
  unfold unique. rewrite unique_from_nil. split.
  - intros Hl. destruct l as [|x l]; [done|].
    specialize (Hl x (list_elem_of_here _ _)). by apply elem_of_nil in Hl.
  - intros -> x Hx. by apply elem_of_nil in Hx.
Qed.

Lemma dropna_nil col : dropna col = [] ↔ ∀ c, c ∈ col → c = None.
Proof.
  split.
  - intros Hd [s|] Hc; [|done]. apply elem_of_dropna in Hc. rewrite Hd in Hc.
    by apply elem_of_nil in Hc.
  - intros Hc. destruct (dropna col) as [|s l] eqn:Hd; [done|].
    assert (s ∈ dropna col) as Hs by (rewrite Hd; left).
    apply elem_of_dropna in Hs. by specialize (Hc _ Hs).
Qed.

(** The script stops before any fetch exactly when there is no text entry
    and the upload gives no ticker: no file, a file that cannot be read, a
    file without a [Ticker] column, or a column whose cells are all
    missing.  It then requests nothing and leaves the store as it was. *)
Theorem script_no_tickers_iff uploaded_file single_ticker :
  (fetch_argument uploaded_file single_ticker = None ↔
   single_ticker = "" ∧
   (uploaded_file = None ∨
    (∃ e, uploaded_file = Some (Raise e)) ∨
    ∃ df, uploaded_file = Some (Ret df) ∧
          (df !! "Ticker" = None ∨
           ∃ col, df !! "Ticker" = Some col ∧ ∀ c, c ∈ col → c = None))) ∧
  ∀ net s,
    (script net uploaded_file single_ticker s).1 = NoTickers ↔
    script net uploaded_file single_ticker s = (NoTickers, s) ∧
    fetch_argument uploaded_file single_ticker = None.
Proof.
  assert (fetch_argument uploaded_file single_ticker = None ↔
          tickers uploaded_file single_ticker = []) as Harg.
  { unfold fetch_argument. by destruct (tickers uploaded_file single_ticker). }
  split.
  - rewrite Harg. unfold tickers, uploaded_tickers.
    destruct (decide (single_ticker = "")) as [->|Hne].
    + destruct uploaded_file as [[df|e]|].
      2:{ split; [|done]. intros _. split; [done|]. right. left. by exists e. }
      2:{ split; [|done]. intros _. split; [done|]. by left. }
      destruct (df !! "Ticker") as [col|] eqn:Hcol.
      * rewrite unique_nil. split.
        -- intros Hc. apply fmap_nil_inv in Hc. rewrite dropna_nil in Hc.
           split; [done|]. right. right. exists df. split; [done|].
           right. by exists col.
        -- intros (_ & [?|[[e ?]|(df' & [= <-] & [?|(col' & Hc' & Hall)])]]);
             try done; try congruence.
           assert (col' = col) as -> by congruence.
           apply dropna_nil in Hall. by rewrite Hall.
      * split; [|done]. intros _. split; [done|]. right. right. exists df. auto.
    + split; [done|]. by intros [? _].
  - intros net s. unfold script.
    destruct (fetch_argument uploaded_file single_ticker) as [ts|] eqn:Hf.
    + split; [|by intros [_ ?]].
      destruct (cached_fetch_data net ts s) as [[[[|row rows] n]|e] s']; done.
    + done.
Qed.

Lemma tickers_NoDup uploaded_file single_ticker : NoDup (tickers uploaded_file single_ticker).
Proof.
  unfold tickers, uploaded_tickers.
  destruct (decide (single_ticker = "")) as [_|_]; [|apply NoDup_singleton].
  destruct uploaded_file as [[df|err]|]; try apply NoDup_nil_2.
  destruct (df !! "Ticker"); [apply unique_spec|apply NoDup_nil_2].
Qed.

Lemma unique_from_sublist seen l : unique_from seen l `sublist_of` l.
Proof.
  revert seen. induction l as [|y l IH]; intros seen; simpl; [done|].
  destruct (decide (y ∈ seen)); [by apply sublist_cons|by apply sublist_skip].
Qed.

Lemma unique_from_NoDup seen l :
  NoDup l → (∀ x, x ∈ l → x ∉ seen) → unique_from seen l = l.
Proof.
  revert seen. induction l as [|y l IH]; intros seen Hnd Hseen; simpl; [done|].
  apply NoDup_cons in Hnd as [Hy Hnd].
  destruct (decide (y ∈ seen)) as [Hin|_].
  - destruct (Hseen y); [left|done].
  - f_equal. apply IH; [done|]. intros x Hx [->|Hs]%elem_of_cons; [done|].
    apply (Hseen x); [by right|done].
Qed.

(** The tickers of an uploaded file keep the order of the file: they are
    the upper-cased cells that are not missing, each at its first
    appearance, the later repetitions left out; a column without
    repetition is taken as it is. *)
Theorem uploaded_tickers_order df col :
  df !! "Ticker" = Some col →
  tickers (Some (Ret df)) "" `sublist_of` (upper <$> dropna col) ∧
  head (tickers (Some (Ret df)) "") = head (upper <$> dropna col) ∧
  (NoDup (upper <$> dropna col) → tickers (Some (Ret df)) "" = upper <$> dropna col).
Proof.
  intros Hcol. unfold tickers, uploaded_tickers. simpl. rewrite Hcol.
  split; [apply unique_from_sublist|]. split.
  - unfold unique. by destruct (upper <$> dropna col).
  - intros Hnd. apply unique_from_NoDup; [done|]. intros x _ Hx.
    by apply elem_of_nil in Hx.
Qed.

(** *** The memoized call *)


(** A call that raises stores nothing: the store is unchanged, the list
    was not in it, the exception is the first one the routine raises along
    the list, and the same call made again requests the same tickers
    again and raises again. *)
Theorem cached_fetch_data_raise_not_stored net ts s e s1 :
  cached_fetch_data net ts s = (Raise e, s1) →
  cache s1 = cache s ∧
  cache s !! ts = None ∧
  first_raise net ts = Some e ∧
  requests s1 = requests s ++ (url_of <$> requested net ts) ∧
  ∃ s2, cached_fetch_data net ts s1 = (Raise e, s2) ∧
        requests s2 = requests s1 ++ (url_of <$> requested net ts).
Proof.
  assert (∀ log, first_raise net ts = Some e →
            fetch_data net ts log = (Raise e, log ++ (url_of <$> requested net ts)))
    as Hagain.
  { intros log He. destruct (fetch_loop_effect net ts [] 0 log) as [Hl Hr].
    rewrite He in Hr. fold (fetch_data net ts log) in Hl, Hr.
    destruct (fetch_data net ts log) as [r l]. simpl in *. by subst. }
  unfold cached_fetch_data at 1.
  destruct (cache s !! ts) as [v0|] eqn:Hc; [done|].
  destruct (fetch_loop_effect net ts [] 0 (requests s)) as [Hl Hr].
  fold (fetch_data net ts (requests s)) in Hl, Hr.
  destruct (fetch_data net ts (requests s)) as [[v|e'] log]; [done|].
  simpl in Hl, Hr. intros [= -> <-]. simpl.
  assert (first_raise net ts = Some e) as He.
  { destruct (first_raise net ts) as [e0|]; [congruence|].
    by destruct Hr as [_ [v ?]]. }
  repeat split; try done.
  eexists. unfold cached_fetch_data. simpl. rewrite Hc, (Hagain _ He). done.
Qed.

(** The store stays sound: when every stored table is a table of its key
    ([table_ok]), so is every stored table after a call, and so is the table
    the call returns. *)
Theorem cached_fetch_data_cache_ok net ts s r s' :
  cache_ok s →
  cached_fetch_data net ts s = (r, s') →
  cache_ok s' ∧ ∀ v, r = Ret v → table_ok ts v ∧ (v.2 ≤ length ts)%nat.
Proof.
  intros Hok. unfold cached_fetch_data.
  assert (∀ tickers v, table_ok tickers v → (v.2 ≤ length tickers)%nat) as Hlen.
  { intros tickers [rows n] (Hn & Hsub & _). simpl in *. subst n.
    apply sublist_length in Hsub. unfold ticker_options in Hsub.
    by rewrite !length_fmap in Hsub. }
  destruct (cache s !! ts) as [v0|] eqn:Hc.
  - intros [= <- <-]. split; [done|]. intros v [= <-]. split; [by apply Hok|].
    by apply Hlen, Hok.
  - destruct (fetch_data net ts (requests s)) as [[v|e] log] eqn:Hf; intros [= <- <-].
    + assert (table_ok ts v) as Hv.
      { apply (fetch_data_table_ok_aux net ts (requests s)). by rewrite Hf. }
      split.
      * intros k v' Hk. simpl in Hk. destruct (decide (k = ts)) as [->|Hne].
        -- rewrite lookup_insert_eq in Hk. by injection Hk as <-.
        -- rewrite lookup_insert_ne in Hk by done. by apply Hok.
      * intros v' [= <-]. split; [done|by apply Hlen].
    + split; [done|]. by intros v.
Qed.

End MoreAppFacts.

(** ** Properties of the script around the fetch *)

Section DashboardFacts.
Context `{Builtins}.
Variable lower : string → string.

Lemma ticker_is_true sel (row : gmap string value) :
  ticker_is sel row = true ↔ row !! "Ticker" = Some (VStr sel).
Proof.
  unfold ticker_is. destruct (row !! "Ticker") as [[| |t|]|]; try (split; done).
  rewrite String.eqb_eq. split; [by intros ->|by intros [= ->]].
Qed.

Lemma ticker_options_elem sel (df : list (gmap string value)) :
  VStr sel ∈ ticker_options df ↔ ∃ row, row ∈ df ∧ row !! "Ticker" = Some (VStr sel).
Proof.
  unfold ticker_options. rewrite list_elem_of_fmap. split.
  - intros (row & Heq & Hin). exists row. split; [done|].
    destruct (row !! "Ticker"); simpl in Heq; by subst.
  - intros (row & Hin & Ht). exists row. by rewrite Ht.
Qed.

Lemma details_row_in (df : list (gmap string value)) sel :
  VStr sel ∈ ticker_options df →
  ∃ row, details_row df sel = Some row ∧ row ∈ df ∧ row !! "Ticker" = Some (VStr sel).
Proof.
  rewrite ticker_options_elem. intros (row & Hin & Ht). unfold details_row.
  assert (row ∈ List.filter (ticker_is sel) df) as Hf.
  { apply list_elem_of_In, filter_In. split; [by apply list_elem_of_In|].
    by apply ticker_is_true. }
  destruct (List.filter (ticker_is sel) df) as [|row0 l] eqn:Hl.
  { by apply elem_of_nil in Hf. }
  exists row0. split; [done|].
  assert (row0 ∈ List.filter (ticker_is sel) df) as H0 by (rewrite Hl; left).
  apply list_elem_of_In, filter_In in H0 as [H0 Ht0].
  split; [by apply list_elem_of_In|by apply ticker_is_true].
Qed.

Lemma ticker_is_normalize_level sel (row : gmap string value) :
  ticker_is sel (normalize_level lower row) = ticker_is sel row.
Proof. unfold ticker_is, normalize_level. by rewrite lookup_insert_ne. Qed.

Lemma details_row_normalize_level (df : list (gmap string value)) sel :
  details_row (normalize_level lower <$> df) sel =
  normalize_level lower <$> details_row df sel.
Proof.
  unfold details_row. induction df as [|row df IH]; [done|].
  rewrite fmap_cons. simpl. rewrite ticker_is_normalize_level.
  by destruct (ticker_is sel row).
Qed.

(** The row of the details view is always found: for a ticker among the
    options of the select box, [iloc[0]] finds a row of the table with that
    ticker; when no ticker stands twice in the table it is the only such
    row; and the lower-casing of the levels, which the script does before,
    changes neither which row is found nor any of its other columns. *)
Theorem details_row_found (df : list (gmap string value)) selected_ticker :
  VStr selected_ticker ∈ ticker_options df →
  ∃ row,
    details_row df selected_ticker = Some row ∧
    row ∈ df ∧
    row !! "Ticker" = Some (VStr selected_ticker) ∧
    (NoDup (ticker_options df) →
     ∀ row', row' ∈ df → row' !! "Ticker" = Some (VStr selected_ticker) → row' = row) ∧
    details_row (normalize_level lower <$> df) selected_ticker =
      Some (normalize_level lower row) ∧
    ∀ k, k ≠ "Total ESG Risk Level" → normalize_level lower row !! k = row !! k.
Proof.
  intros Hsel. destruct (details_row_in df selected_ticker Hsel) as (row & Hd & Hin & Ht).
  exists row. split; [done|]. split; [done|]. split; [done|]. split; [|split].
  - clear Hsel Hin. revert Hd. unfold details_row.
    induction df as [|x df IH]; [done|].
    intros Hd Hnd row' Hin' Ht'.
    change (ticker_options (x :: df))
      with (default VNone (x !! "Ticker") :: ticker_options df) in Hnd.
    apply NoDup_cons in Hnd as [Hx Hnd]. simpl in Hd.
    destruct (ticker_is selected_ticker x) eqn:Hx'.
    + injection Hd as ->. apply elem_of_cons in Hin' as [->|Hin']; [done|].
      destruct Hx. apply ticker_is_true in Hx'. rewrite Hx'. simpl.
      apply ticker_options_elem. by exists row'.
    + apply elem_of_cons in Hin' as [->|Hin'].
      * apply ticker_is_true in Ht'. congruence.
      * by apply IH.
  - by rewrite details_row_normalize_level, Hd.
  - intros k Hk. unfold normalize_level. by rewrite lookup_insert_ne.
Qed.

Lemma fetch_argument_Some uploaded_file single_ticker ts :
  fetch_argument uploaded_file single_ticker = Some ts →
  ts = tickers uploaded_file single_ticker ∧ ts ≠ [].
Proof.
  unfold fetch_argument. destruct (tickers uploaded_file single_ticker); [done|].
  by intros [= <-].
Qed.

Lemma cached_fetch_data_sound net ts s r s' :
  cache_ok s →
  cached_fetch_data net ts s = (r, s') →
  cache_ok s' ∧ ∀ v, r = Ret v → table_ok ts v.
Proof.
  intros Hok. unfold cached_fetch_data.
  destruct (cache s !! ts) as [v0|] eqn:Hc.
  - intros [= <- <-]. split; [done|]. intros v [= <-]. by apply Hok.
  - destruct (fetch_data net ts (requests s)) as [[v|e] log] eqn:Hf; intros [= <- <-].
    + assert (table_ok ts v) as Hv.
      { apply (fetch_data_table_ok_aux net ts (requests s)). by rewrite Hf. }
      split.
      * intros k v' Hk. simpl in Hk. destruct (decide (k = ts)) as [->|Hne].
        -- rewrite lookup_insert_eq in Hk. by injection Hk as <-.
        -- rewrite lookup_insert_ne in Hk by done. by apply Hok.
      * by intros v' [= <-].
    + split; [done|]. by intros v.
Qed.

(** When the dashboard is shown over a sound store, the list of tickers is
    the one of the sidebar and has no repetition, the table has at least
    one row and at most one per ticker, the count shown is its number of
    rows (so the coverage is a share of a list that is not empty, above 0
    and at most 1), every row is well formed and no ticker has two rows. *)
Theorem script_shown net uploaded_file single_ticker s ts df n s' :
  cache_ok s →
  script net uploaded_file single_ticker s = (Shown ts df n, s') →
  fetch_argument uploaded_file single_ticker = Some ts ∧
  NoDup ts ∧
  (1 ≤ n)%nat ∧ n = length df ∧ (n ≤ length ts)%nat ∧
  Forall row_ok df ∧
  NoDup (ticker_options df) ∧
  cache_ok s'.
Proof.
  intros Hok. unfold script.
  destruct (fetch_argument uploaded_file single_ticker) as [ts0|] eqn:Harg; [|done].
  destruct (cached_fetch_data net ts0 s) as [r s0] eqn:Hc.
  destruct (cached_fetch_data_sound _ _ _ _ _ Hok Hc) as [Hok' Hv].
  destruct r as [[[|row rows] n0]|e]; [done| |done].
  intros [= <- <- <- <-].
  destruct (Hv _ eq_refl) as (Hn & Hsub & Hrows).
  change (n0 = length (row :: rows)) in Hn.
  change (ticker_options (row :: rows) `sublist_of` (VStr <$> ts0)) in Hsub.
  change (Forall row_ok (row :: rows)) in Hrows.
  apply fetch_argument_Some in Harg as Hts. destruct Hts as [Hts _].
  assert (NoDup ts0) as Hnd by (rewrite Hts; apply tickers_NoDup).
  assert (NoDup (VStr <$> ts0)) as Hnd'.
  { apply NoDup_fmap_2; [|done]. by intros x y [= ->]. }
  split; [done|]. split; [done|].
  split; [subst n0; simpl; lia|]. split; [done|].
  split.
  { subst n0. apply sublist_length in Hsub. unfold ticker_options in Hsub.
    by rewrite !length_fmap in Hsub. }
  split; [done|]. split; [|done].
  by apply (sublist_NoDup _ _ Hnd').
Qed.

Lemma details_row_fetched net (l : list string) t :
  Forall (λ t, has_total net t = true) l → t ∈ l →
  details_row (row_for net <$> l) t = Some (row_for net t).
Proof.
  intros Hl Hin. unfold details_row. induction l as [|x l IH].
  { by apply elem_of_nil in Hin. }
  apply Forall_cons in Hl as [Hx Hl]. rewrite fmap_cons. simpl.
  destruct (row_for_total net x Hx) as [Htx _].
  destruct (decide (x = t)) as [->|Hne].
  - apply ticker_is_true in Htx. by rewrite Htx.
  - assert (ticker_is t (row_for net x) = false) as ->.
    { destruct (ticker_is t (row_for net x)) eqn:Hb; [|done].
      apply ticker_is_true in Hb. congruence. }
    apply IH; [done|]. by apply elem_of_cons in Hin as [->|Hin].
Qed.

(** From the page to the details view: for a ticker of the list whose page
    (status 200, score sections that extract) has a total score, the row
    the details view reads after a fetch that returned holds that score,
    the level in lower case (["unknown"] when the page has none), the
    involvement mapping of the page and its two controversy fields. *)
Theorem details_of_served_ticker net ts log df n t soup total level :
  serves net t soup → scores_extract soup →
  get_score soup "TOTAL_ESG_SCORE" = Ret (Some total, level) →
  t ∈ ts →
  (fetch_data net ts log).1 = Ret (df, n) →
  ∃ row,
    details_row (normalize_level lower <$> df) t = Some row ∧
    row !! "Ticker" = Some (VStr t) ∧
    row !! "Total ESG Risk Score" = Some (VFloat total) ∧
    row !! "Total ESG Risk Level" =
      Some (VStr (match level with Some l => lower l | None => "unknown" end)) ∧
    row !! "Involvement Areas" = Some (VDict (involvement_areas soup)) ∧
    row !! "Controversy Score" = Some (float_or_none (controversy soup).1) ∧
    row !! "Controversy Category Average" = Some (float_or_none (controversy soup).2).
Proof.
  intros Hs Hok Htotal Hin Hf.
  assert (∃ env soc gov,
    scrape_result net t = Ret (Some (result_dict (Some total, level) env soc gov soup)))
    as (env & soc & gov & Hr).
  { rewrite (scrape_result_served _ _ _ Hs).
    pose proof (scrape_soup_cases soup) as Hc.
    destruct (scrape_soup_returns soup Hok) as (total' & env & soc & gov & Hr).
    rewrite Hr in Hc.
    destruct Hc as (total'' & env' & soc' & gov' & l1 & l2 & l3 & E1 & _ & _ & _ & Heq).
    rewrite Hr, Heq. rewrite Htotal in E1. injection E1 as <-. eauto. }
  pose proof (result_dict_lookup (Some total, level) env soc gov soup) as Hl.
  simpl in Hl. destruct Hl as (H1 & H2 & H3 & H4 & H5 & H6 & H7 & H8).
  assert (has_total net t = true) as Hhas.
  { unfold has_total. by rewrite Hr, H1. }
  unfold fetch_data in Hf.
  pose proof (fetch_loop_cases net ts [] 0 log) as Hc. rewrite Hf in Hc.
  destruct Hc as [-> _]. simpl.
  rewrite details_row_normalize_level.
  rewrite (details_row_fetched net _ t (list_filter_Forall _ _)).
  2:{ apply list_elem_of_In, filter_In. split; [by apply list_elem_of_In|done]. }
  eexists. split; [reflexivity|].
  unfold row_for. rewrite Hr.
  assert (table_row t (result_dict (Some total, level) env soc gov soup)
            !! "Total ESG Risk Level" = Some (str_or_none level)) as Hlevel.
  { unfold table_row.
    change (Some (str_or_none level)) with (Some (default VNone (Some (str_or_none level)))).
    rewrite <- H2. reflexivity. }
  split; [|split; [|split; [|split; [|split]]]].
  - unfold normalize_level. rewrite lookup_insert_ne by done. reflexivity.
  - unfold normalize_level. rewrite lookup_insert_ne by done.
    change (Some (VFloat total)) with (Some (default VNone (Some (VFloat total)))).
    rewrite <- H1. reflexivity.
  - unfold normalize_level. rewrite lookup_insert_eq, Hlevel. by destruct level.
  - unfold normalize_level. rewrite lookup_insert_ne by done.
    change (Some (VDict (involvement_areas soup)))
      with (Some (default (VDict ∅) (Some (VDict (involvement_areas soup))))).
    rewrite <- H6. reflexivity.
  - unfold normalize_level. rewrite lookup_insert_ne by done.
    change (Some (float_or_none (controversy soup).1))
      with (Some (default VNone (Some (float_or_none (controversy soup).1)))).
    rewrite <- H7. reflexivity.
  - unfold normalize_level. rewrite lookup_insert_ne by done.
    change (Some (float_or_none (controversy soup).2))
      with (Some (default VNone (Some (float_or_none (controversy soup).2)))).
    rewrite <- H8. reflexivity.
Qed.

End DashboardFacts.

(** ** Properties of the export *)

Section ExportFacts.
Context `{Builtins}.

Lemma product_columns_elem (df : list (gmap string value)) p :
  p ∈ product_columns df ↔ ∃ row, row ∈ df ∧ is_Some (involvement_of row !! p).
Proof.
  unfold product_columns. rewrite elem_of_union_list. split.
  - intros (X & HX & Hp). apply list_elem_of_fmap in HX as (row & -> & Hrow).
    exists row. split; [done|]. by apply elem_of_dom.
  - intros (row & Hrow & Hp). exists (dom (involvement_of row)).
    split; [|by apply elem_of_dom]. apply list_elem_of_fmap. by exists row.
Qed.

Lemma fill_no_lookup (columns : gset string) (m : gmap string string) p :
  p ∈ columns → fill_no columns m !! p = Some (default "No" (m !! p)).
Proof.
  intros Hp. unfold fill_no. rewrite lookup_union.
  assert (gset_to_gmap "No" columns !! p = Some "No") as ->.
  { by apply lookup_gset_to_gmap_Some. }
  by destruct (m !! p).
Qed.

Lemma fill_no_dom (columns : gset string) (m : gmap string string) :
  dom m ⊆ columns → dom (fill_no columns m) = columns.
Proof.
  intros Hsub. unfold fill_no. rewrite dom_union_L, dom_gset_to_gmap.
  apply set_eq. intros p. rewrite elem_of_union. split; [|by right].
  intros [Hp|Hp]; [by apply Hsub|done].
Qed.

Lemma explode_involvement_columns_eq (df : list (gmap string value)) :
  explode_involvement_columns df =
  (λ row, (delete "Involvement Areas" row,
           fill_no (product_columns df) (involvement_of row))) <$> df.
Proof. by destruct df. Qed.

(** The exported table has the rows of the table, in their order; its
    product columns are the products that some row has; a row keeps its
    other columns and loses [Involvement Areas]; and under each product
    column it has its own descriptor, or ["No"] when it has none. *)
Theorem explode_involvement_columns_cells (df : list (gmap string value)) :
  length (explode_involvement_columns df) = length df ∧
  (∀ p, p ∈ product_columns df ↔
        ∃ row, row ∈ df ∧ is_Some (involvement_of row !! p)) ∧
  ∀ i row, df !! i = Some row →
    ∃ cells,
      explode_involvement_columns df !! i = Some (delete "Involvement Areas" row, cells) ∧
      dom cells = product_columns df ∧
      ∀ p, p ∈ product_columns df →
           cells !! p = Some (default "No" (involvement_of row !! p)).
Proof.
  rewrite explode_involvement_columns_eq. split; [by rewrite length_fmap|].
  split; [apply product_columns_elem|].
  intros i row Hi. eexists. rewrite list_lookup_fmap, Hi. split; [reflexivity|].
  split.
  - apply fill_no_dom. intros p Hp. apply product_columns_elem. exists row.
    split; [by apply (list_elem_of_lookup_2 _ i)|by apply elem_of_dom].
  - intros p Hp. by apply fill_no_lookup.
Qed.

(** The export can be read back for a row none of whose descriptors is
    ["No"]: the cells other than ["No"] are the mapping of the row, and put
    back under [Involvement Areas] they give the row again. *)
Theorem explode_involvement_columns_read_back (df : list (gmap string value)) i row m :
  df !! i = Some row →
  row !! "Involvement Areas" = Some (VDict m) →
  (∀ p, m !! p ≠ Some "No") →
  ∃ base cells,
    explode_involvement_columns df !! i = Some (base, cells) ∧
    filter (λ kv, kv.2 ≠ "No") cells = m ∧
    <["Involvement Areas" := VDict (filter (λ kv, kv.2 ≠ "No") cells)]> base = row.
Proof.
  intros Hi Hm Hno. rewrite explode_involvement_columns_eq.
  eexists _, _. rewrite list_lookup_fmap, Hi. split; [reflexivity|].
  assert (involvement_of row = m) as -> by (unfold involvement_of; by rewrite Hm).
  assert (filter (λ kv : string * string, kv.2 ≠ "No") (fill_no (product_columns df) m) = m)
    as Hback.
  { apply map_eq. intros p. apply option_eq. intros v.
    rewrite map_lookup_filter_Some. unfold fill_no. rewrite lookup_union_Some_raw.
    rewrite lookup_gset_to_gmap_Some. simpl. split.
    - intros [[Hp|(_ & _ & <-)] Hv]; done.
    - intros Hp. split; [by left|]. intros ->. by destruct (Hno p). }
  split; [done|]. rewrite Hback, insert_delete_eq. by apply insert_id.
Qed.


End ExportFacts.

(** ** The properties on the sample pages *)

Import Sample.

Lemma page_scores_extract : scores_extract page.
Proof.
  intros testid Hin. unfold score_sections in Hin.
  repeat (apply elem_of_cons in Hin as [->|Hin]; [by vm_compute|]).
  by apply elem_of_nil in Hin.
Defined.

Lemma page_sparse_scores_extract : scores_extract page_sparse.
Proof.
  intros testid Hin. unfold score_sections in Hin.
  repeat (apply elem_of_cons in Hin as [->|Hin]; [by vm_compute|]).
  by apply elem_of_nil in Hin.
Defined.

Lemma web_serves_page : serves web "AAPL" page.
Proof. eexists. by vm_compute. Defined.

Lemma web_serves_page_sparse : serves web "SPARSE" page_sparse.
Proof. eexists. by vm_compute. Defined.

(** The example of the specification: of [AAPL] and a ticker that is not
    found, the table has the one row of [AAPL] and the count is 1. *)
Example fetch_data_aapl_invalid :
  match (fetch_data web ["AAPL"; "ZZZZINVALID"] []).1 with
  | Ret ([row], valid_count) =>
      Some (valid_count, row !! "Ticker", row !! "Total ESG Risk Score",
            row !! "Total ESG Risk Level")
  | _ => None
  end = Some (1, Some (VStr "AAPL"), Some (VFloat (142%Z, 1)), Some (VStr "Low")).
Proof. reflexivity. Qed.

Lemma get_score_unparseable_raises_sample :
  float (strip (text heading_na)) = None ∧
  get_score page_na "TOTAL_ESG_SCORE" = Raise ValueError ∧
  scrape_soup page_na = Raise ValueError ∧
  (scrape_esg_scores (serving page_na) "AAPL" []).1 = Raise ValueError.
Proof.
  split; [reflexivity|].
  destruct (get_score_unparseable_raises page_na "TOTAL_ESG_SCORE" total_na heading_na)
    as (Hg & Hs & Hcall);
    [apply list_elem_of_here|reflexivity..|].
  split; [exact Hg|]. split; [exact Hs|].
  apply Hcall. eexists. split; [reflexivity|]. split; reflexivity.
Defined.

Lemma scrape_esg_scores_not_found :
  answering 404 (url_of "ZZZZINVALID") =
    Ret {| status_code := 404; body := NavigableString "" |} ∧
  (scrape_esg_scores (answering 404) "ZZZZINVALID" []).1 = Ret None.
Proof.
  split; [reflexivity|].
  apply (scrape_esg_scores_status_not_200 (answering 404) "ZZZZINVALID" []
           {| status_code := 404; body := NavigableString "" |});
    [reflexivity|by vm_compute].
Defined.

(** Without a network the GET fails, and the routine raises the exception
    of the request instead of returning [None]. *)
Lemma scrape_esg_scores_offline_raises :
  offline (url_of "AAPL") = Raise RequestException ∧
  (scrape_esg_scores offline "AAPL" []).1 = Raise RequestException ∧
  (scrape_esg_scores offline "AAPL" []).1 ≠ Ret None.
Proof. repeat split. discriminate. Qed.

Lemma involvement_areas_sample :
  involvement_areas page = involvement_rows [tobacco_no; one_cell; tobacco_yes] ∧
  involvement_areas page !! "Tobacco" = Some "Yes" ∧
  involvement_areas page_sparse = ∅ ∧
  returns_field web "SPARSE" "involvement_areas" (VDict ∅).
Proof.
  destruct (involvement_areas_last_row_wins page involvement_section involvement_table
              header_row [tobacco_no; one_cell; tobacco_yes])
    as (Heq & Hlookup & _ & _); [reflexivity..|].
  destruct (involvement_areas_last_row_wins page_sparse header_only_section
              header_only_table header_row [])
    as (_ & _ & Hempty & Hfield); [reflexivity..|].
  split; [exact Heq|]. split; [|split; [by apply Hempty|]].
  - apply Hlookup. exists [tobacco_no; one_cell], tobacco_yes, [].
    split; [reflexivity|]. split; [reflexivity|constructor].
  - apply (Hfield web "SPARSE" web_serves_page_sparse page_sparse_scores_extract).
Defined.

Lemma involvement_areas_one_cell_sample :
  find_all "td" any_tag one_cell = [txt "td" [] "Alcohol"] ∧
  involvement_areas page = involvement_rows [tobacco_no; tobacco_yes] ∧
  involvement_areas page !! "Alcohol" = None ∧
  returns_field web "AAPL" "involvement_areas"
    (VDict (involvement_rows [tobacco_no; tobacco_yes])).
Proof.
  split; [reflexivity|].
  destruct (involvement_areas_one_cell_row_skipped page involvement_section
              involvement_table header_row [tobacco_no] one_cell [tobacco_yes]
              (txt "td" [] "Alcohol"))
    as (_ & _ & Heq & Hfield); [reflexivity..|].
  split; [exact Heq|]. split; [by rewrite Heq|].
  apply (Hfield web "AAPL" web_serves_page page_scores_extract).
Defined.

Lemma controversy_from_spans_sample :
  controversy page = (Some (3%Z, 0), Some (21%Z, 1)) ∧
  returns_field web "AAPL" "controversy_score" (VFloat (3%Z, 0)) ∧
  returns_field web "AAPL" "controversy_category_average" (VFloat (21%Z, 1)).
Proof.
  destruct (controversy_from_spans page controversy_section val_div span_3 span_scale []
              tooltip_div peer_span)
    as (_ & Hex); [reflexivity..|].
  destruct Hex as (Heq & Hfield); [reflexivity..|].
  split; [exact Heq|].
  apply (Hfield web "AAPL" web_serves_page page_scores_extract).
Defined.

Lemma controversy_score_one_span_sample :
  find_all "span" any_tag val_div_one = [span_3] ∧
  float (strip (text span_3)) = Some (3%Z, 0) ∧
  (controversy page_sparse).1 = None ∧
  returns_field web "SPARSE" "controversy_score" VNone.
Proof.
  split; [reflexivity|]. split; [reflexivity|].
  destruct (controversy_score_two_spans page_sparse controversy_one val_div_one)
    as (Hone & _); [reflexivity..|].
  destruct Hone as (Hnone & Hfield); [vm_compute; lia|].
  split; [exact Hnone|].
  apply (Hfield web "SPARSE" web_serves_page_sparse page_sparse_scores_extract).
Defined.

Lemma scrape_esg_scores_no_record_sample :
  get_score page_empty_heading "GOVERNANCE_SCORE" = Raise ValueError ∧
  (scrape_esg_scores (serving page_empty_heading) "AAPL" []).1 = Raise ValueError.
Proof.
  split; [reflexivity|].
  apply (scrape_esg_scores_no_record (serving page_empty_heading) "AAPL" []
           page_empty_heading "GOVERNANCE_SCORE").
  - eexists. split; [reflexivity|]. split; reflexivity.
  - do 3 apply list_elem_of_further. apply list_elem_of_here.
  - reflexivity.
Defined.

Lemma fetch_argument_upper_unique_sample :
  let uploaded := Some (Ret {[ "Ticker" := [Some "aapl"; None; Some "msft"; Some "AAPL"] ]}) in
  fetch_argument uploaded "" = Some ["AAPL"; "MSFT"] ∧
  NoDup ["AAPL"; "MSFT"] ∧
  Forall (λ t, ∃ s, t = upper s) ["AAPL"; "MSFT"].
Proof.
  simpl. split; [reflexivity|].
  destruct (fetch_argument_upper_unique
              (Some (Ret {[ "Ticker" := [Some "aapl"; None; Some "msft"; Some "AAPL"] ]}))
              "" ["AAPL"; "MSFT"])
    as (Hnd & Hup & _); [reflexivity|].
  split; [exact Hnd|exact Hup].
Defined.

Lemma cached_fetch_data_twice_sample :
  ∃ v s1,
    cached_fetch_data web ["AAPL"; "ZZZZINVALID"] {| cache := ∅; requests := [] |}
      = (Ret v, s1) ∧
    cached_fetch_data offline ["AAPL"; "ZZZZINVALID"] s1 = (Ret v, s1) ∧
    requests s1 = [url_of "AAPL"; url_of "ZZZZINVALID"].
Proof.
  assert (∃ v s1, cached_fetch_data web ["AAPL"; "ZZZZINVALID"]
                    {| cache := ∅; requests := [] |} = (Ret v, s1)) as (v & s1 & Heq).
  { eexists _, _. reflexivity. }
  exists v, s1. split; [exact Heq|].
  destruct (cached_fetch_data_twice web offline _ _ _ _ Heq) as (Hsecond & Hmiss & _).
  split; [exact Hsecond|]. rewrite (Hmiss eq_refl). reflexivity.
Defined.

(** ** The further properties on the sample pages *)

Lemma new_session_ok : cache_ok new_session.
Proof.
  intros ts v Hv. exfalso. unfold new_session in Hv. simpl in Hv.
  rewrite lookup_empty in Hv. discriminate Hv.
Defined.

Lemma page_no_total_scores_extract : scores_extract page_no_total.
Proof.
  intros testid Hin. unfold score_sections in Hin.
  repeat (apply elem_of_cons in Hin as [->|Hin]; [by vm_compute|]).
  by apply elem_of_nil in Hin.
Defined.

Lemma scrape_esg_scores_record_sample :
  ∃ data,
    (scrape_esg_scores web "AAPL" []).1 = Ret (Some data) ∧
    dom data = result_keys ∧
    ∃ o, data !! "total" = Some (float_or_none o).
Proof.
  assert (∃ data, (scrape_esg_scores web "AAPL" []).1 = Ret (Some data)) as [data Hd].
  { eexists. reflexivity. }
  exists data. split; [exact Hd|].
  destruct (scrape_esg_scores_record web "AAPL" [] data Hd) as (Hdom & Hf & _).
  split; [exact Hdom|]. apply Hf. apply list_elem_of_here.
Defined.

Lemma scrape_esg_scores_blank_page_sample :
  ∃ data,
    (scrape_esg_scores (serving blank_page) "AAPL" []).1 = Ret (Some data) ∧
    data !! "involvement_areas" = Some (VDict ∅) ∧
    data !! "total" = Some VNone.
Proof.
  destruct (scrape_esg_scores_blank_page (serving blank_page) "AAPL" [] blank_page)
    as (data & Hd & Hinv & Hnull).
  - eexists. split; [reflexivity|]. split; reflexivity.
  - intros testid. reflexivity.
  - exists data. split; [exact Hd|]. split; [exact Hinv|].
    apply Hnull; [|discriminate]. unfold result_keys.
    do 7 (apply elem_of_union; left). by apply elem_of_singleton.
Defined.

Lemma involvement_row_not_two_cells_sample :
  length (find_all "td" any_tag three_cells) = 3%nat ∧
  length (find_all "td" any_tag header_row) = 0%nat ∧
  involvement_rows ([tobacco_no] ++ three_cells :: [tobacco_yes]) =
    involvement_rows ([tobacco_no] ++ [tobacco_yes]) ∧
  involvement_rows ([] ++ header_row :: [tobacco_yes]) = involvement_rows ([] ++ [tobacco_yes]).
Proof.
  split; [reflexivity|]. split; [reflexivity|].
  destruct (involvement_row_not_two_cells three_cells) as [_ H3]; [by vm_compute|].
  destruct (involvement_row_not_two_cells header_row) as [_ H0]; [by vm_compute|].
  split; [apply H3|apply H0].
Defined.

Lemma fetch_data_table_ok_sample :
  ∃ v, (fetch_data web ["AAPL"; "ZZZZINVALID"] []).1 = Ret v ∧
       table_ok ["AAPL"; "ZZZZINVALID"] v ∧ (v.2 ≤ 2)%nat.
Proof.
  assert (∃ v, (fetch_data web ["AAPL"; "ZZZZINVALID"] []).1 = Ret v) as [v Hv].
  { eexists. reflexivity. }
  exists v. split; [exact Hv|].
  apply (fetch_data_table_ok web ["AAPL"; "ZZZZINVALID"] [] v Hv).
Defined.

Lemma fetch_data_no_total_no_row_sample :
  find "section" (with_attr "data-testid" "TOTAL_ESG_SCORE") page_no_total = None ∧
  has_total (serving page_no_total) "AAPL" = false.
Proof.
  split; [reflexivity|].
  destruct (fetch_data_no_total_no_row (serving page_no_total) "AAPL" page_no_total)
    as [Hno _].
  - eexists. split; [reflexivity|]. split; reflexivity.
  - exact page_no_total_scores_extract.
  - left. reflexivity.
  - exact Hno.
Defined.

Lemma uploaded_tickers_order_sample :
  let df : gmap string (list (option string)) := {[ "Ticker" := uploaded_column ]} in
  tickers (Some (Ret df)) "" = ["AAPL"; "MSFT"] ∧
  tickers (Some (Ret df)) "" `sublist_of` ["AAPL"; "MSFT"; "AAPL"] ∧
  head (tickers (Some (Ret df)) "") = Some "AAPL".
Proof.
  simpl. split; [reflexivity|].
  destruct (uploaded_tickers_order {[ "Ticker" := uploaded_column ]} uploaded_column)
    as (Hsub & Hhead & _); [reflexivity|].
  split; [exact Hsub|exact Hhead].
Defined.


Lemma cached_fetch_data_raise_not_stored_sample :
  ∃ s1 s2,
    cached_fetch_data offline ["AAPL"; "SPARSE"] new_session = (Raise RequestException, s1) ∧
    cache s1 = ∅ ∧
    requests s1 = [url_of "AAPL"] ∧
    cached_fetch_data offline ["AAPL"; "SPARSE"] s1 = (Raise RequestException, s2) ∧
    requests s2 = [url_of "AAPL"; url_of "AAPL"].
Proof.
  assert (∃ s1, cached_fetch_data offline ["AAPL"; "SPARSE"] new_session
                = (Raise RequestException, s1)) as [s1 Hc].
  { eexists. reflexivity. }
  destruct (cached_fetch_data_raise_not_stored offline ["AAPL"; "SPARSE"] new_session
              RequestException s1 Hc)
    as (Hcache & _ & _ & Hreq & s2 & Hagain & Hreq2).
  exists s1, s2. split; [exact Hc|]. split; [exact Hcache|].
  split; [exact Hreq|]. split; [exact Hagain|].
  rewrite Hreq2, Hreq. reflexivity.
Defined.

Lemma cached_fetch_data_cache_ok_sample :
  ∃ v s',
    cached_fetch_data web ["AAPL"; "ZZZZINVALID"] new_session = (Ret v, s') ∧
    cache_ok s' ∧ table_ok ["AAPL"; "ZZZZINVALID"] v.
Proof.
  assert (∃ v s', cached_fetch_data web ["AAPL"; "ZZZZINVALID"] new_session = (Ret v, s'))
    as (v & s' & Hc).
  { eexists _, _. reflexivity. }
  exists v, s'. split; [exact Hc|].
  destruct (cached_fetch_data_cache_ok web ["AAPL"; "ZZZZINVALID"] new_session (Ret v) s'
              new_session_ok Hc) as [Hok Hv].
  split; [exact Hok|]. apply (Hv v eq_refl).
Defined.

Lemma sample_table_options : ticker_options sample_table = [VStr "AAPL"; VStr "SPARSE"].
Proof. reflexivity. Defined.

Lemma details_row_found_sample :
  ∃ row,
    details_row sample_table "SPARSE" = Some row ∧
    row !! "Ticker" = Some (VStr "SPARSE") ∧
    details_row (normalize_level lower <$> sample_table) "SPARSE"
      = Some (normalize_level lower row).
Proof.
  destruct (details_row_found lower sample_table "SPARSE")
    as (row & Hd & _ & Ht & _ & Hn & _).
  - rewrite sample_table_options. apply list_elem_of_further, list_elem_of_here.
  - exists row. split; [exact Hd|]. split; [exact Ht|exact Hn].
Defined.

Lemma script_shown_sample :
  ∃ df n s',
    script web None "aapl" new_session = (Shown ["AAPL"] df n, s') ∧
    n = 1%nat ∧ length df = 1%nat ∧ NoDup (ticker_options df).
Proof.
  assert (∃ df s', script web None "aapl" new_session = (Shown ["AAPL"] df 1, s'))
    as (df & s' & Hs).
  { eexists _, _. reflexivity. }
  exists df, 1%nat, s'. split; [exact Hs|]. split; [reflexivity|].
  destruct (script_shown web None "aapl" new_session ["AAPL"] df 1 s' new_session_ok Hs)
    as (_ & _ & _ & Hn & _ & _ & Hnd & _).
  split; [by rewrite <- Hn|exact Hnd].
Defined.

Lemma details_of_served_ticker_sample :
  ∃ df n row,
    (fetch_data web ["SPARSE"; "AAPL"] []).1 = Ret (df, n) ∧
    details_row (normalize_level lower <$> df) "AAPL" = Some row ∧
    row !! "Total ESG Risk Score" = Some (VFloat (142%Z, 1)) ∧
    row !! "Total ESG Risk Level" = Some (VStr "low") ∧
    row !! "Controversy Score" = Some (VFloat (3%Z, 0)).
Proof.
  assert (∃ df n, (fetch_data web ["SPARSE"; "AAPL"] []).1 = Ret (df, n)) as (df & n & Hf).
  { eexists _, _. reflexivity. }
  destruct (details_of_served_ticker lower web ["SPARSE"; "AAPL"] [] df n "AAPL" page
              (142%Z, 1) (Some "Low"))
    as (row & Hd & _ & Htotal & Hlevel & _ & Hscore & _).
  - exact web_serves_page.
  - exact page_scores_extract.
  - reflexivity.
  - apply list_elem_of_further, list_elem_of_here.
  - exact Hf.
  - exists df, n, row. split; [exact Hf|]. split; [exact Hd|].
    split; [exact Htotal|]. split; [exact Hlevel|exact Hscore].
Defined.

Lemma sample_involvement : involvement_areas page = {[ "Tobacco" := "Yes" ]}.
Proof. reflexivity. Defined.

Lemma explode_involvement_columns_read_back_sample :
  ∃ base cells,
    explode_involvement_columns sample_table !! 0%nat = Some (base, cells) ∧
    filter (λ kv, kv.2 ≠ "No") cells = {[ "Tobacco" := "Yes" ]} ∧
    <["Involvement Areas" := VDict (filter (λ kv, kv.2 ≠ "No") cells)]> base
      = row_for web "AAPL".
Proof.
  apply (explode_involvement_columns_read_back sample_table 0 (row_for web "AAPL")
           {[ "Tobacco" := "Yes" ]}).
  - reflexivity.
  - rewrite <- sample_involvement. reflexivity.
  - intros p. destruct (decide (p = "Tobacco")) as [->|Hne].
    + rewrite lookup_singleton_eq. discriminate.
    + rewrite lookup_singleton_ne by done. discriminate.
Defined.

